(** * Portfolio construction and projection pipeline of [proyecto.py]

    A shallow embedding of the Streamlit dashboard script: the two
    [load_data] definitions, the summary statistics of the S&P 500 and
    Stock Analysis pages, the volatility ranking and the three portfolio
    rules (inline on the Portfolio Comparison page and again in
    [get_portfolios]), the row-wise mean of the aligned return series and
    the linear trend projection of the 3-Year Prediction page.

    Conventions.
    - Prices held in a fetched frame are rationals ([Q]).  Values computed
      by numpy/pandas are [fval]: a rational or one of the IEEE specials
      [PInf], [NInf], [NaN], so that a division by zero yields what numpy
      yields (an infinity or NaN, with a RuntimeWarning) and not an
      exception.  Rounding and overflow of binary64 are not modelled.
    - Streamlit calls are recorded in a log of [ui_event]s carried by a
      writer monad [ui].  Static text (page titles, introductory
      paragraphs, footnotes) is left out of the log.
    - A Python [dict] is an association list in insertion order with
      unique keys. *)

From Stdlib Require Import List String Ascii Bool Arith ZArith QArith Qminmax.
From Stdlib Require Import Lia Lqa Permutation Sorted DecimalString.
Import ListNotations.

Local Open Scope string_scope.
Local Open Scope list_scope.

(** ** Numeric values *)

Module Num.

Inductive fval : Type :=
| Fin (q : Q)
| PInf
| NInf
| NaN.

Definition is_finite (v : fval) : bool :=
  match v with Fin _ => true | _ => false end.

Definition is_nan (v : fval) : bool :=
  match v with NaN => true | _ => false end.

(** Equality of values up to the representation of the fraction. *)
Definition feq (a b : fval) : Prop :=
  match a, b with
  | Fin x, Fin y => x == y
  | PInf, PInf | NInf, NInf | NaN, NaN => True
  | _, _ => False
  end.

Definition fneg (a : fval) : fval :=
  match a with
  | Fin x => Fin (- x)
  | PInf => NInf
  | NInf => PInf
  | NaN => NaN
  end.

Definition fadd (a b : fval) : fval :=
  match a, b with
  | NaN, _ | _, NaN => NaN
  | Fin x, Fin y => Fin (x + y)
  | PInf, NInf | NInf, PInf => NaN
  | PInf, _ | _, PInf => PInf
  | NInf, _ | _, NInf => NInf
  end.

Definition fsub (a b : fval) : fval := fadd a (fneg b).

(** The infinity carrying the sign of a non-zero rational. *)
Definition inf_of_sign (x : Q) : fval :=
  if Qle_bool 0 x then PInf else NInf.

Definition fmul (a b : fval) : fval :=
  match a, b with
  | NaN, _ | _, NaN => NaN
  | Fin x, Fin y => Fin (x * y)
  | Fin x, PInf | PInf, Fin x => if Qeq_bool x 0 then NaN else inf_of_sign x
  | Fin x, NInf | NInf, Fin x => if Qeq_bool x 0 then NaN else inf_of_sign (- x)
  | PInf, PInf | NInf, NInf => PInf
  | PInf, NInf | NInf, PInf => NInf
  end.

(** numpy's true division on float64 scalars: [x / 0] is an infinity of
    the sign of [x] and [0 / 0] is NaN (the zero read as [+0.0]). *)
Definition fdiv (a b : fval) : fval :=
  match a, b with
  | NaN, _ | _, NaN => NaN
  | Fin x, Fin y =>
      if Qeq_bool y 0
      then (if Qeq_bool x 0 then NaN else inf_of_sign x)
      else Fin (x / y)
  | Fin _, (PInf | NInf) => Fin 0
  | PInf, Fin y => inf_of_sign y
  | NInf, Fin y => inf_of_sign (- y)
  | (PInf | NInf), (PInf | NInf) => NaN
  end.

(** [base ** e] for an exponent [e] that is positive and not an integer
    (the only exponents of the script: [1 / num_years] and [1 / 3]).
    [rpow] is the real power of a positive base; the other cases are those
    of C's [pow]. *)
Definition fpow (rpow : Q -> Q -> Q) (base : fval) (e : Q) : fval :=
  match base with
  | NaN => NaN
  | PInf | NInf => PInf
  | Fin x =>
      if Qeq_bool x 0 then Fin 0
      else if Qle_bool 0 x then Fin (rpow x e)
      else NaN
  end.

Definition fsum (l : list fval) : fval := fold_left fadd l (Fin 0).

Fixpoint Qsum (l : list Q) : Q :=
  match l with
  | [] => 0
  | x :: l' => x + Qsum l'
  end.

Definition Qmean (l : list Q) : Q :=
  Qsum l / inject_Z (Z.of_nat (List.length l)).

End Num.
Import Num.

(** ** Python containers *)

Definition ticker := string.

Definition dict (V : Type) := list (string * V).

(** [d[k] = v]: an existing key keeps its position. *)
Fixpoint dict_set {V : Type} (k : string) (v : V) (d : dict V) : dict V :=
  match d with
  | [] => [(k, v)]
  | (k', v') :: d' =>
      if String.eqb k' k then (k, v) :: d' else (k', v') :: dict_set k v d'
  end.

Fixpoint dict_get {V : Type} (k : string) (d : dict V) : option V :=
  match d with
  | [] => None
  | (k', v') :: d' => if String.eqb k' k then Some v' else dict_get k d'
  end.

Definition keys {V : Type} (d : dict V) : list string := map fst d.

(** A dict display [{k1: v1, k2: v2, ...}]: later duplicates overwrite. *)
Definition dict_literal {V : Type} (entries : list (string * V)) : dict V :=
  fold_left (fun d kv => dict_set (fst kv) (snd kv) d) entries [].

(** [l[:n]] and [l[-n:]] for [n > 0]. *)
Definition slice_to {A : Type} (n : nat) (l : list A) : list A := firstn n l.
Definition slice_last {A : Type} (n : nat) (l : list A) : list A :=
  skipn (List.length l - n) l.

(** ** Fetched data *)

Record row : Type := mk_row {
  date : Z;        (* ordinal of the trading day *)
  Open : Q;
  High : Q;
  Low : Q;
  Close : Q
}.

Definition frame := list row.

Definition empty (data : frame) : bool :=
  match data with [] => true | _ => false end.

(** What one call of [yf.download] does. *)
Inductive attempt : Type :=
| Raises (msg : string)
| Returns (data : frame).

(** ** Streamlit log *)

Inductive cell : Type :=
| Num (v : fval)
| Text (s : string).

Inductive ui_event : Type :=
| st_warning (msg : string)
| st_error (msg : string)
| time_sleep (seconds : nat)
| st_line_chart (title : string)
| st_pyplot (title : string)
| st_table (caption : string) (cells : list (string * cell))
| st_write_value (label : string) (value : fval).

Definition ui (A : Type) : Type := (A * list ui_event)%type.

Definition ret {A : Type} (a : A) : ui A := (a, []).

Definition bind {A B : Type} (m : ui A) (k : A -> ui B) : ui B :=
  let (a, l1) := m in
  let (b, l2) := k a in
  (b, l1 ++ l2).

Definition emit (e : ui_event) : ui unit := (tt, [e]).

Declare Scope ui_scope.
Delimit Scope ui_scope with ui.
Notation "x <- m ;; k" := (bind m (fun x => k))
  (at level 61, m at next level, right associativity) : ui_scope.
Notation "m ;; k" := (bind m (fun _ => k))
  (at level 61, right associativity) : ui_scope.
Local Open Scope ui_scope.

Definition value_of {A : Type} (m : ui A) : A := fst m.
Definition log_of {A : Type} (m : ui A) : list ui_event := snd m.

Definition is_error (e : ui_event) : bool :=
  match e with st_error _ => true | _ => false end.

Definition show_nat (n : nat) : string :=
  NilZero.string_of_uint (Nat.to_uint n).

Infix "+++" := String.append (at level 60, right associativity).

(** ** The two definitions of [load_data] *)

Module Loader.

Section OneCall.

(** [download k] is the outcome of the [k]-th call of [yf.download]
    made while this call of [load_data] runs. *)
Variable download : nat -> attempt.
Variable tkr : ticker.

(** The body of [try:]: an empty frame raises [ValueError]. *)
Definition try_download (k : nat) : string + frame :=
  match download k with
  | Raises msg => inl msg
  | Returns data =>
      if empty data then inl ("No data found for " +++ tkr) else inr data
  end.

(** Lines 21-35.  [fuel] is [max_retries - attempt], the variant of the
    [while] loop. *)
Fixpoint retry_loop (max_retries retry_delay fuel attempt : nat)
  : ui (option frame) :=
  match fuel with
  | O =>
      emit (st_error ("Failed to load data for " +++ tkr +++ " after "
                      +++ show_nat max_retries +++ " attempts.")) ;;
      ret None
  | S fuel' =>
      match try_download attempt with
      | inr data => ret (Some data)
      | inl e =>
          emit (st_warning ("Failed to load data for " +++ tkr +++ ": " +++ e
                            +++ ". Retrying in " +++ show_nat retry_delay
                            +++ " seconds...")) ;;
          emit (time_sleep retry_delay) ;;
          retry_loop max_retries retry_delay fuel' (S attempt)
      end
  end.

Definition load_data_retry (max_retries retry_delay : nat) : ui (option frame) :=
  retry_loop max_retries retry_delay max_retries 0.

(** Lines 677-687: one attempt. *)
Definition load_data_once : ui (option frame) :=
  match try_download 0 with
  | inr data => ret (Some data)
  | inl e =>
      emit (st_error ("Failed to load data for " +++ tkr +++ ": " +++ e)) ;;
      ret None
  end.

End OneCall.

(** The pages of the sidebar, in the order of their blocks in the script. *)
Inductive page : Type :=
| Introduction
| SP500
| SectorAnalysis
| StockAnalysis
| PortfolioComparison
| Prediction.

(** The function the name [load_data] is bound to when the block of a page
    runs: the script is executed top to bottom, the second [def] (line 679)
    rebinds the name after the Stock Analysis block. *)
Definition load_data (p : page) (download : nat -> attempt) (tkr : ticker)
  : ui (option frame) :=
  match p with
  | Introduction | SP500 | SectorAnalysis | StockAnalysis =>
      load_data_retry download tkr 3 5
  | PortfolioComparison | Prediction =>
      load_data_once download tkr
  end.

End Loader.

(** ** Summary statistics (S&P 500 page, lines 84-93; the Stock Analysis
    page repeats them verbatim at lines 647-656) *)

Inductive page_result : Type :=
| Completed
| Crashed (exn : string).

(** [Series.pct_change()]: NaN first, then [(c_i - c_(i-1)) / c_(i-1)]. *)
Fixpoint pct_change_from (prev : Q) (l : list Q) : list fval :=
  match l with
  | [] => []
  | c :: l' => fdiv (fsub (Fin c) (Fin prev)) (Fin prev) :: pct_change_from c l'
  end.

Definition pct_change (l : list Q) : list fval :=
  match l with
  | [] => []
  | c :: l' => NaN :: pct_change_from c l'
  end.

(** [(end_date - start_date).days / 365.25] with
    [start_date = end_date - timedelta(days=3*365)]. *)
Definition num_years : Q := inject_Z (3 * 365) / (36525 # 100).

Definition total_return (opening_value closing_value : fval) : fval :=
  fmul (fdiv (fsub closing_value opening_value) opening_value) (Fin 100).

Definition cagr (rpow : Q -> Q -> Q) (opening_value closing_value : fval) : fval :=
  fmul (fsub (fpow rpow (fdiv closing_value opening_value) (1 / num_years))
             (Fin 1))
       (Fin 100).

Section Statistics.

(** The real power of a positive base, and [Series.std() * np.sqrt(252)]
    (a series too short to have a standard deviation is outside the model:
    the statistic is read as a rational). *)
Variable rpow : Q -> Q -> Q.
Variable annualized_std : list fval -> Q.

(** The statistics of a frame with first row [r0]. *)
Definition summary_statistics (r0 : row) (rest : frame) : list (string * cell) :=
  let data := r0 :: rest in
  let opening_value := Fin (Open r0) in
  let closing_value := Fin (Close (last data r0)) in
  let minimum_value := fold_left Qmin (map Low rest) (Low r0) in
  let maximum_value := fold_left Qmax (map High rest) (High r0) in
  let volatility := annualized_std (pct_change (map Close data)) in
  [ ("Opening Value", Num opening_value);
    ("Closing Value", Num closing_value);
    ("Total Return (%)", Num (total_return opening_value closing_value));
    ("CAGR (%)", Num (cagr rpow opening_value closing_value));
    ("Minimum Value", Num (Fin minimum_value));
    ("Maximum Value", Num (Fin maximum_value));
    ("Volatility", Num (Fin volatility)) ].

(** Lines 75-115.  [sp500.empty] on [None] raises [AttributeError]. *)
Definition sp500_page (download : ticker -> nat -> attempt) : ui page_result :=
  sp500 <- Loader.load_data Loader.SP500 (download "^GSPC") "^GSPC" ;;
  match sp500 with
  | None => ret (Crashed "AttributeError")
  | Some [] => ret Completed
  | Some (r0 :: rest) =>
      emit (st_line_chart "Close") ;;
      emit (st_table "" (summary_statistics r0 rest)) ;;
      ret Completed
  end.

End Statistics.

(** Every numeric cell handed to [st.table] is a finite number. *)
Definition cells_finite (cells : list (string * cell)) : bool :=
  forallb (fun kv => match snd kv with Num v => is_finite v | Text _ => true end)
          cells.

(** ** Volatility ranking and portfolio rules *)

(** [sorted(items, key=lambda x: x[1], reverse=True)]: descending and
    stable (entries with equal keys keep their order). *)
Fixpoint insert_desc (x : string * Q) (l : list (string * Q)) : list (string * Q) :=
  match l with
  | [] => [x]
  | y :: l' =>
      if Qle_bool (snd y) (snd x) then x :: y :: l' else y :: insert_desc x l'
  end.

Definition sorted_reverse (items : list (string * Q)) : list (string * Q) :=
  fold_right insert_desc [] items.

(** [sp500_companies[ticker][1]]; the tickers looked up are keys of the
    table, so the [KeyError] branch is not reached. *)
Definition sector_of (sp500_companies : dict (string * string)) (t : ticker)
  : string :=
  match dict_get t sp500_companies with
  | Some (_, sector) => sector
  | None => ""
  end.

Definition portfolios := dict (list ticker).

(** *** Portfolio Comparison page, Steps 1-3 (lines 694-725) *)

Module Comparison.
Section Page.

Variable annualized_std : list fval -> Q.
(** [list(set(xs))]: the elements of [xs] without repetition, in the
    iteration order of the set. *)
Variable set_order : list string -> list string.
Variable sp500_companies : dict (string * string).
Variable download : ticker -> nat -> attempt.

Definition load_data (t : ticker) : ui (option frame) :=
  Loader.load_data Loader.PortfolioComparison (download t) t.

Fixpoint volatility_loop (tickers : list ticker) (volatilities : dict Q)
  : ui (dict Q) :=
  match tickers with
  | [] => ret volatilities
  | t :: rest =>
      data <- load_data t ;;
      match data with
      | Some d =>
          let volatility := annualized_std (pct_change (map Close d)) in
          volatility_loop rest (dict_set t volatility volatilities)
      | None => volatility_loop rest volatilities
      end
  end.

Fixpoint sector_loop (sorted_volatilities : list (string * Q))
  (sectors : list string) (diversified_portfolio : list ticker) : list ticker :=
  match sectors with
  | [] => diversified_portfolio
  | sector :: rest =>
      let sector_stocks :=
        filter (fun tv => String.eqb (sector_of sp500_companies (fst tv)) sector)
               sorted_volatilities in
      let with_top := diversified_portfolio ++ map fst (slice_to 2 sector_stocks) in
      let with_bottom := with_top ++ map fst (slice_last 2 sector_stocks) in
      sector_loop sorted_volatilities rest with_bottom
  end.

(** [Some portfolio_data] when the [else] branch runs, [None] when the
    page stops at [st.error]. *)
Definition selection : ui (option portfolios) :=
  volatilities <- volatility_loop (keys sp500_companies) [] ;;
  match volatilities with
  | [] =>
      emit (st_error "No valid data available for any tickers.") ;;
      ret None
  | _ :: _ =>
      let sorted_volatilities := sorted_reverse volatilities in
      let aggressive_portfolio := map fst (slice_to 5 sorted_volatilities) in
      let low_risk_portfolio := map fst (slice_last 100 sorted_volatilities) in
      let sectors := set_order (map (sector_of sp500_companies) (keys sp500_companies)) in
      let diversified_portfolio := sector_loop sorted_volatilities sectors [] in
      ret (Some [ ("Aggressive", aggressive_portfolio);
                  ("Low-Risk", low_risk_portfolio);
                  ("Diversified", diversified_portfolio) ])
  end.

End Page.
End Comparison.

(** *** [get_portfolios] (lines 770-794) *)

Module Reused.
Section Function.

Variable annualized_std : list fval -> Q.
Variable set_order : list string -> list string.
Variable sp500_companies : dict (string * string).
Variable download : ticker -> nat -> attempt.

Definition load_data (t : ticker) : ui (option frame) :=
  Loader.load_data Loader.Prediction (download t) t.

Fixpoint volatility_loop (tickers : list ticker) (volatilities : dict Q)
  : ui (dict Q) :=
  match tickers with
  | [] => ret volatilities
  | t :: rest =>
      data <- load_data t ;;
      match data with
      | Some d =>
          let volatility := annualized_std (pct_change (map Close d)) in
          volatility_loop rest (dict_set t volatility volatilities)
      | None => volatility_loop rest volatilities
      end
  end.

Fixpoint sector_loop (sorted_volatilities : list (string * Q))
  (sectors : list string) (diversified_portfolio : list ticker) : list ticker :=
  match sectors with
  | [] => diversified_portfolio
  | sector :: rest =>
      let sector_stocks :=
        filter (fun tv => String.eqb (sector_of sp500_companies (fst tv)) sector)
               sorted_volatilities in
      let with_top := diversified_portfolio ++ map fst (slice_to 2 sector_stocks) in
      let with_bottom := with_top ++ map fst (slice_last 2 sector_stocks) in
      sector_loop sorted_volatilities rest with_bottom
  end.

Definition ranking : ui (list (string * Q)) :=
  volatilities <- volatility_loop (keys sp500_companies) [] ;;
  ret (sorted_reverse volatilities).

Definition get_portfolios : ui portfolios :=
  sorted_volatilities <- ranking ;;
  let aggressive_portfolio := map fst (slice_to 5 sorted_volatilities) in
  let low_risk_portfolio := map fst (slice_last 100 sorted_volatilities) in
  let sectors := set_order (map (sector_of sp500_companies) (keys sp500_companies)) in
  let diversified_portfolio := sector_loop sorted_volatilities sectors [] in
  ret [ ("Aggressive", aggressive_portfolio);
        ("Low-Risk", low_risk_portfolio);
        ("Diversified", diversified_portfolio) ].

End Function.
End Reused.

(** ** Aligned series and their row-wise mean *)

(** A pandas [Series] indexed by date; a missing value is [NaN]. *)
Definition series := list (Z * fval).

Fixpoint insert_date (d : Z) (index : list Z) : list Z :=
  match index with
  | [] => [d]
  | x :: index' =>
      if (d <? x)%Z then d :: index
      else if (d =? x)%Z then index
      else x :: insert_date d index'
  end.

(** The index of [pd.concat(objs, axis=1)]: the union of the dates of the
    series, ascending. *)
Definition union_index (objs : list series) : list Z :=
  fold_left (fun index s => fold_left (fun i dv => insert_date (fst dv) i) s index)
            objs [].

Fixpoint at_date (d : Z) (s : series) : fval :=
  match s with
  | [] => NaN
  | (d', v) :: s' => if (d' =? d)%Z then v else at_date d s'
  end.

(** One row per date of the union, one column per series. *)
Definition concat_axis1 (objs : list series) : list (Z * list fval) :=
  map (fun d => (d, map (at_date d) objs)) (union_index objs).

Definition present (cells : list fval) : list fval :=
  filter (fun v => negb (is_nan v)) cells.

(** [mean(axis=1)] of one row, [skipna=True]. *)
Definition row_mean (cells : list fval) : fval :=
  match present cells with
  | [] => NaN
  | v :: vs => fdiv (fsum (v :: vs)) (Fin (inject_Z (Z.of_nat (List.length (v :: vs)))))
  end.

Definition concat_mean (objs : list series) : series :=
  map (fun r => (fst r, row_mean (snd r))) (concat_axis1 objs).

(** [Series.cumprod()]: a NaN entry stays NaN and is skipped by the
    running product. *)
Fixpoint cumprod_from (acc : fval) (l : list fval) : list fval :=
  match l with
  | [] => []
  | v :: l' =>
      if is_nan v then NaN :: cumprod_from acc l'
      else fmul acc v :: cumprod_from (fmul acc v) l'
  end.

Definition cumprod (l : list fval) : list fval := cumprod_from (Fin 1) l.

Definition close_series (data : frame) : series :=
  map (fun r => (date r, Fin (Close r))) data.

Definition returns_series (data : frame) : series :=
  combine (map date data) (pct_change (map Close data)).

(** *** Portfolio Comparison page, Step 4 (lines 727-767) *)

Module ComparisonPage.
Section Page.

Variable rpow : Q -> Q -> Q.
Variable annualized_std : list fval -> Q.
Variable set_order : list string -> list string.
Variable sp500_companies : dict (string * string).
Variable download : ticker -> nat -> attempt.

Fixpoint returns_loop (tickers : list ticker) (portfolio_returns : list series)
  (valid_tickers : list ticker) : ui (list series * list ticker) :=
  match tickers with
  | [] => ret (portfolio_returns, valid_tickers)
  | t :: rest =>
      data <- Comparison.load_data download t ;;
      match data with
      | Some d =>
          returns_loop rest (portfolio_returns ++ [returns_series d])
                       (valid_tickers ++ [t])
      | None => returns_loop rest portfolio_returns valid_tickers
      end
  end.

Definition portfolio_block (portfolio_name : string) (tickers : list ticker)
  : ui unit :=
  loaded <- returns_loop tickers [] [] ;;
  match fst loaded with
  | [] => ret tt
  | _ :: _ =>
      let combined_returns := map snd (concat_mean (fst loaded)) in
      let cumulative_returns :=
        map (fun v => fsub v (Fin 1)) (cumprod (map (fadd (Fin 1)) combined_returns)) in
      let total_return := last cumulative_returns NaN in
      let cagr := fsub (fpow rpow (fadd (Fin 1) total_return) (1 / 3)) (Fin 1) in
      let portfolio_volatility := annualized_std combined_returns in
      emit (st_pyplot (portfolio_name +++ " Portfolio Performance")) ;;
      emit (st_table (portfolio_name +++ " Portfolio Summary")
              [ ("Tickers", Text (String.concat ", " (snd loaded)));
                ("Total Return (%)", Num (fmul total_return (Fin 100)));
                ("CAGR (%)", Num (fmul cagr (Fin 100)));
                ("Volatility", Num (Fin portfolio_volatility)) ])
  end.

Fixpoint portfolio_loop (portfolio_data : portfolios) : ui unit :=
  match portfolio_data with
  | [] => ret tt
  | (portfolio_name, tickers) :: rest =>
      portfolio_block portfolio_name tickers ;;
      portfolio_loop rest
  end.

Definition page : ui unit :=
  chosen <- Comparison.selection annualized_std set_order sp500_companies download ;;
  match chosen with
  | None => ret tt
  | Some portfolio_data => portfolio_loop portfolio_data
  end.

End Page.
End ComparisonPage.

(** ** Trend projection *)

(** [sklearn.linear_model.LinearRegression] on one feature, with exact
    arithmetic: the least-squares line; when the feature does not vary
    (a single sample) the minimum-norm solution has slope 0. *)
Record linear_model : Type := mk_model { coef : Q; intercept : Q }.

Definition day_range (start len : nat) : list Q :=
  map (fun i => inject_Z (Z.of_nat i)) (seq start len).

Definition fit (X y : list Q) : linear_model :=
  let x_mean := Qmean X in
  let y_mean := Qmean y in
  let sxx := Qsum (map (fun x => (x - x_mean) * (x - x_mean)) X) in
  let sxy := Qsum (map (fun xy => (fst xy - x_mean) * (snd xy - y_mean))
                       (combine X y)) in
  let slope := if Qeq_bool sxx 0 then 0 else sxy / sxx in
  mk_model slope (y_mean - slope * x_mean).

Definition predict (model : linear_model) (X : list Q) : list Q :=
  map (fun x => intercept model + coef model * x) X.

(** [model.score]: the coefficient of determination of [r2_score], NaN
    below two samples, and 1 or 0 when the targets do not vary. *)
Definition score (model : linear_model) (X y : list Q) : fval :=
  if (List.length y <? 2)%nat then NaN
  else
    let y_mean := Qmean y in
    let ss_res := Qsum (map (fun py => (snd py - fst py) * (snd py - fst py))
                            (combine (predict model X) y)) in
    let ss_tot := Qsum (map (fun v => (v - y_mean) * (v - y_mean)) y) in
    if Qeq_bool ss_tot 0
    then (if Qeq_bool ss_res 0 then Fin 1 else Fin 0)
    else Fin (1 - ss_res / ss_tot).

Record projection : Type := mk_projection {
  prediction : list Q;
  expected_return : fval;
  r_squared : fval
}.

(** Lines 823-839 for the values [portfolio_df.values], projected
    [horizon] days forward (the page uses [3*365]). *)
Definition project (horizon : nat) (values : list Q) : projection :=
  let days := day_range 0 (List.length values) in
  let model := fit days values in
  let future_days := day_range (List.length values) horizon in
  let prediction := predict model future_days in
  let initial_value := last values 0 in
  let final_value := last prediction 0 in
  let expected_return :=
    fmul (fdiv (fsub (Fin final_value) (Fin initial_value)) (Fin initial_value))
         (Fin 100) in
  mk_projection prediction expected_return (score model days values).

(** sklearn's input validation: a NaN or an infinity raises [ValueError]. *)
Fixpoint finite_values (l : list fval) : option (list Q) :=
  match l with
  | [] => Some []
  | Fin q :: l' =>
      match finite_values l' with
      | Some qs => Some (q :: qs)
      | None => None
      end
  | _ :: _ => None
  end.

(** *** 3-Year Prediction page (lines 797-853) *)

Module PredictionPage.
Section Page.

Variable annualized_std : list fval -> Q.
Variable set_order : list string -> list string.
Variable sp500_companies : dict (string * string).
Variable download : ticker -> nat -> attempt.

Fixpoint values_loop (tickers : list ticker) (combined_values : list series)
  : ui (list series) :=
  match tickers with
  | [] => ret combined_values
  | t :: rest =>
      data <- Reused.load_data download t ;;
      match data with
      | Some d => values_loop rest (combined_values ++ [close_series d])
      | None => values_loop rest combined_values
      end
  end.

Definition portfolio_block (portfolio_name : string) (tickers : list ticker)
  : ui page_result :=
  combined_values <- values_loop tickers [] ;;
  match combined_values with
  | [] => ret Completed
  | _ :: _ =>
      let portfolio_df := concat_mean combined_values in
      match finite_values (map snd portfolio_df) with
      | None => ret (Crashed "ValueError")
      | Some values =>
          let p := project (3 * 365) values in
          emit (st_write_value ("Expected Return for " +++ portfolio_name
                                +++ " Portfolio in 3 years")
                               (expected_return p)) ;;
          emit (st_write_value ("R-squared for " +++ portfolio_name +++ " Portfolio")
                               (r_squared p)) ;;
          emit (st_pyplot (portfolio_name +++ " Portfolio - 3-Year Linear Estimation")) ;;
          ret Completed
      end
  end.

Fixpoint portfolio_loop (items : portfolios) : ui page_result :=
  match items with
  | [] => ret Completed
  | (portfolio_name, tickers) :: rest =>
      r <- portfolio_block portfolio_name tickers ;;
      match r with
      | Completed => portfolio_loop rest
      | Crashed exn => ret (Crashed exn)
      end
  end.

Definition page : ui page_result :=
  sp500 <- Reused.load_data download "^GSPC" ;;
  match sp500 with
  | None | Some [] =>
      emit (st_error "Failed to load S&P 500 data. Please check your connection or try again later.") ;;
      ret Completed
  | Some (_ :: _) =>
      items <- Reused.get_portfolios annualized_std set_order sp500_companies download ;;
      portfolio_loop items
  end.

End Page.
End PredictionPage.

(** ** Sector Analysis page (lines 130-221) *)

Module SectorPage.

Definition sectors : dict ticker :=
  dict_literal
    [ ("Communication Services", "XLC");
      ("Consumer Discretionary", "XLY");
      ("Consumer Staples", "XLP");
      ("Energy", "XLE");
      ("Financials", "XLF");
      ("Healthcare", "XLV");
      ("Industrials", "XLI");
      ("Information Technology", "XLK");
      ("Materials", "XLB");
      ("Real Estate", "XLRE");
      ("Utilities", "XLU") ].

Definition sector_definitions : dict (string * list string) :=
  dict_literal
    [ ("Communication Services",
       ("Companies providing communication services (e.g., telecom, media).",
        ["AT&T"; "Verizon"; "Netflix"]));
      ("Consumer Discretionary",
       ("Companies producing goods/services not essential (e.g., retail, media).",
        ["Amazon"; "Tesla"; "Nike"]));
      ("Consumer Staples",
       ("Companies producing essential goods (e.g., food, beverages).",
        ["Procter & Gamble"; "Coca-Cola"; "Walmart"]));
      ("Energy",
       ("Companies involved in the production and supply of energy.",
        ["ExxonMobil"; "Chevron"; "ConocoPhillips"]));
      ("Financials",
       ("Companies providing financial services (e.g., banks, insurance).",
        ["JPMorgan Chase"; "Bank of America"; "Goldman Sachs"]));
      ("Healthcare",
       ("Companies providing healthcare products/services.",
        ["Johnson & Johnson"; "Pfizer"; "UnitedHealth Group"]));
      ("Industrials",
       ("Companies producing goods used in construction and manufacturing.",
        ["General Electric"; "Boeing"; "3M"]));
      ("Information Technology",
       ("Companies producing technology-related products/services.",
        ["Apple"; "Microsoft"; "NVIDIA"]));
      ("Materials",
       ("Companies providing raw materials (e.g., chemicals, metals).",
        ["DuPont"; "Newmont"; "Dow"]));
      ("Real Estate",
       ("Companies involved in real estate operations.",
        ["American Tower"; "Prologis"; "Equinix"]));
      ("Utilities",
       ("Companies providing essential utility services (e.g., electricity, water).",
        ["Duke Energy"; "NextEra Energy"; "Southern Company"])) ].

Section Page.

Variable rpow : Q -> Q -> Q.
Variable download : ticker -> nat -> attempt.

Definition load_data (t : ticker) : ui (option frame) :=
  Loader.load_data Loader.SectorAnalysis (download t) t.

(** Lines 152-154: the result of [load_data] is stored as it is, [None]
    included. *)
Fixpoint load_loop (items : list (string * ticker))
  (sector_data : dict (option frame)) : ui (dict (option frame)) :=
  match items with
  | [] => ret sector_data
  | (sector, t) :: rest =>
      data <- load_data t ;;
      load_loop rest (dict_set sector data sector_data)
  end.

(** Lines 158-159: [data['Close']] on [None] raises [TypeError]. *)
Fixpoint plot_loop (items : list (string * option frame)) : page_result :=
  match items with
  | [] => Completed
  | (_, Some _) :: rest => plot_loop rest
  | (_, None) :: _ => Crashed "TypeError"
  end.

(** Lines 177-188.  The table is kept row by row, each cell under the name
    of its column. *)
Fixpoint summary_loop (items : list (string * option frame))
  (summary_data : list (string * cell)) : list (string * cell) + string :=
  match items with
  | [] => inl summary_data
  | (sector, Some (r0 :: rest)) :: more =>
      let opening_value := Fin (Open r0) in
      let closing_value := Fin (Close (last (r0 :: rest) r0)) in
      summary_loop more
        (summary_data
         ++ [ ("Sector", Text sector);
              ("Opening Value", Num opening_value);
              ("Closing Value", Num closing_value);
              ("Total Return (%)", Num (total_return opening_value closing_value));
              ("CAGR (%)", Num (cagr rpow opening_value closing_value)) ])
  | (_, Some []) :: _ => inr "IndexError"
  | (_, None) :: _ => inr "TypeError"
  end.

(** Lines 215-218. *)
Definition sector_info : list (string * cell) :=
  flat_map (fun entry =>
              [ ("Sector", Text (fst entry));
                ("Definition", Text (fst (snd entry)));
                ("Example Companies", Text (String.concat ", " (snd (snd entry)))) ])
           sector_definitions.

Definition page : ui page_result :=
  sector_data <- load_loop sectors [] ;;
  match plot_loop sector_data with
  | Crashed exn => ret (Crashed exn)
  | Completed =>
      emit (st_pyplot "Sector Performance Over Time") ;;
      match summary_loop sector_data [] with
      | inr exn => ret (Crashed exn)
      | inl summary_data =>
          emit (st_table "summary" summary_data) ;;
          emit (st_table "sector_info" sector_info) ;;
          ret Completed
      end
  end.

End Page.
End SectorPage.

(** ** Inputs used by the examples *)

Module Sample.

Definition day (d : Z) (c : Q) : row := mk_row d c c c c.

(** Fails twice, then answers. *)
Definition flaky (k : nat) : attempt :=
  if (k <? 2)%nat then Raises "timeout" else Returns [day 1 10; day 2 11].

(** Three companies of one sector. *)
Definition companies_X : dict (string * string) :=
  dict_literal [ ("A", ("Alpha", "X")); ("B", ("Beta", "X")); ("C", ("Gamma", "X")) ].

Definition frame_A : frame := [day 1 1; day 2 1; day 3 1].
Definition frame_B : frame := [day 1 1; day 2 2; day 3 1].
Definition frame_C : frame := [day 1 1; day 2 2; day 3 2].

Definition download_X (t : ticker) (k : nat) : attempt :=
  if String.eqb t "A" then Returns frame_A
  else if String.eqb t "B" then Returns frame_B
  else if String.eqb t "C" then Returns frame_C
  else if String.eqb t "^GSPC" then Returns frame_A
  else Raises "unknown ticker".

(** Only the index loads. *)
Definition index_only (t : ticker) (k : nat) : attempt :=
  if String.eqb t "^GSPC" then Returns frame_A else Raises "timeout".

(** Nothing loads. *)
Definition no_data (t : ticker) (k : nat) : attempt := Raises "timeout".

(** A single trading day. *)
Definition one_day (t : ticker) (k : nat) : attempt := Returns [day 1 100].

(** The square of [std() * sqrt(252)]: it orders series as the
    volatility does.  The examples rank with it. *)
Definition finite_part (l : list fval) : list Q :=
  flat_map (fun v => match v with Fin q => [q] | _ => [] end) l.

Definition variance_252 (returns : list fval) : Q :=
  let xs := finite_part returns in
  let m := Qmean xs in
  Qred (252 * Qsum (map (fun x => (x - m) * (x - m)) xs)
        / inject_Z (Z.of_nat (List.length xs - 1))).

(** First-occurrence order for [list(set(xs))]. *)
Definition first_seen (xs : list string) : list string := nodup string_dec xs.

(** The examples raise no positive finite base to a power; any function
    serves as the real power. *)
Definition unit_power (base e : Q) : Q := 1.

(** Opens at 0, closes at 5. *)
Definition zero_open : row := mk_row 1 0 6 0 5.


End Sample.

(** A table of 105 companies of one sector, each loading the same two
    trading days. *)
Module Wide.

Definition companies : dict (string * string) :=
  dict_literal (map (fun i => ("T" +++ show_nat i, ("Company", "X"))) (seq 0 105)).

Definition download (t : ticker) (k : nat) : attempt :=
  Returns [Sample.day 1 10; Sample.day 2 11].

End Wide.

(** ** Vocabulary of the statements *)

Definition descending (a b : string * Q) : Prop := snd b <= snd a.

(** The entries of a ranking that belong to a sector, and what the sector
    adds to the Diversified list. *)
Definition sector_stocks (sp500_companies : dict (string * string))
  (sorted_volatilities : list (string * Q)) (sector : string)
  : list (string * Q) :=
  filter (fun tv => String.eqb (sector_of sp500_companies (fst tv)) sector)
         sorted_volatilities.

Definition contribution (sp500_companies : dict (string * string))
  (sorted_volatilities : list (string * Q)) (sector : string) : list ticker :=
  map fst (slice_to 2 (sector_stocks sp500_companies sorted_volatilities sector))
  ++ map fst (slice_last 2 (sector_stocks sp500_companies sorted_volatilities sector)).

Definition empty_portfolios : portfolios :=
  [ ("Aggressive", []); ("Low-Risk", []); ("Diversified", []) ].

Definition no_valid_data : ui_event :=
  st_error "No valid data available for any tickers.".

(** The message [load_data] (second definition) shows for one ticker. *)
Definition load_error (e : ui_event) : Prop :=
  exists (t : ticker) (msg : string),
    e = st_error ("Failed to load data for " +++ t +++ ": " +++ msg).

Definition is_chart (e : ui_event) : bool :=
  match e with
  | st_pyplot _ | st_line_chart _ | st_table _ _ | st_write_value _ _ => true
  | _ => false
  end.

(** A series all of whose values are finite, as a column of closing prices
    is. *)
Definition price_series (s : series) : Prop :=
  Forall (fun dv => is_finite (snd dv) = true) s.

(** The three events the 3-Year Prediction page shows for a projection. *)
Definition projection_events (portfolio_name : string) (p : projection)
  : list ui_event :=
  [ st_write_value ("Expected Return for " +++ portfolio_name
                    +++ " Portfolio in 3 years") (expected_return p);
    st_write_value ("R-squared for " +++ portfolio_name +++ " Portfolio")
                   (r_squared p);
    st_pyplot (portfolio_name +++ " Portfolio - 3-Year Linear Estimation") ].

Definition is_warning (e : ui_event) : bool :=
  match e with st_warning _ => true | _ => false end.

(** The seconds spent in [time.sleep]. *)
Fixpoint seconds_slept (log : list ui_event) : nat :=
  match log with
  | [] => 0
  | time_sleep seconds :: log' => seconds + seconds_slept log'
  | _ :: log' => seconds_slept log'
  end.

(** A download that gives data on its first call. *)
Definition loads (download : ticker -> nat -> attempt) (t : ticker) : bool :=
  match Loader.try_download (download t) t 0 with
  | inr _ => true
  | inl _ => false
  end.

(** The values of the line [a + b * day] on the first [n] days. *)
Definition line_history (a b : Q) (n : nat) : list Q :=
  map (fun x => a + b * x) (day_range 0 n).

(** The row of the Sector Analysis summary for one sector. *)
Definition sector_row (rpow : Q -> Q -> Q) (sector : string) (data : option frame)
  : list (string * cell) :=
  match data with
  | Some (r0 :: rest) =>
      [ ("Sector", Text sector);
        ("Opening Value", Num (Fin (Open r0)));
        ("Closing Value", Num (Fin (Close (last (r0 :: rest) r0))));
        ("Total Return (%)",
         Num (total_return (Fin (Open r0)) (Fin (Close (last (r0 :: rest) r0)))));
        ("CAGR (%)",
         Num (cagr rpow (Fin (Open r0)) (Fin (Close (last (r0 :: rest) r0))))) ]
  | _ => []
  end.

(** A frame on which pandas' [std()] of the daily returns is a number:
    three rows or more (two returns or more) and no closing price equal to
    zero (no infinite return).  On other frames the statistic is NaN, a
    key [sorted] does not order. *)
Definition regular_frame (data : frame) : Prop :=
  (3 <= List.length data)%nat /\ Forall (fun r => ~ Close r == 0) data.


(** * Properties *)

(** ** Rational tests *)

Lemma Qeq_bool_true (x y : Q) : x == y -> Qeq_bool x y = true.
Proof. apply Qeq_bool_iff. Qed.

Lemma Qeq_bool_false (x y : Q) : ~ x == y -> Qeq_bool x y = false.
Proof.
  intros Hne. destruct (Qeq_bool x y) eqn:E; [| reflexivity].
  apply Qeq_bool_iff in E. contradiction.
Qed.

Lemma Qle_bool_true (x y : Q) : x <= y -> Qle_bool x y = true.
Proof. apply Qle_bool_iff. Qed.

Lemma Qle_bool_false (x y : Q) : y < x -> Qle_bool x y = false.
Proof.
  intros Hlt. destruct (Qle_bool x y) eqn:E; [| reflexivity].
  apply Qle_bool_iff in E. exfalso. exact (Qlt_not_le _ _ Hlt E).
Qed.

Lemma inf_of_sign_not_finite (x : Q) : is_finite (inf_of_sign x) = false.
Proof. unfold inf_of_sign. destruct (Qle_bool 0 x); reflexivity. Qed.

(** ** The writer monad *)

Lemma bind_ret_l {A B : Type} (a : A) (k : A -> ui B) : bind (ret a) k = k a.
Proof. unfold bind, ret. destruct (k a). reflexivity. Qed.

Lemma bind_value_log {A B : Type} (m : ui A) (k : A -> ui B) :
  bind m k = (value_of (k (value_of m)), log_of m ++ log_of (k (value_of m))).
Proof. unfold bind, value_of, log_of. destruct m as [a l1]. simpl. destruct (k a). reflexivity. Qed.

(** ** Loading *)

(** The retrying definition, used by the first pages: two failures and a
    success within three attempts give the data of the third attempt; the
    log holds two warnings and no error. *)
Lemma load_data_retry_third_attempt (download : nat -> attempt) (tkr : ticker)
  (e0 e1 : string) (data : frame) (retry_delay : nat) :
  Loader.try_download download tkr 0 = inl e0 ->
  Loader.try_download download tkr 1 = inl e1 ->
  Loader.try_download download tkr 2 = inr data ->
  value_of (Loader.load_data_retry download tkr 3 retry_delay) = Some data
  /\ existsb is_error (log_of (Loader.load_data_retry download tkr 3 retry_delay))
     = false.
Proof.
  intros H0 H1 H2. unfold Loader.load_data_retry. simpl.
  rewrite H0. simpl. rewrite H1. simpl. rewrite H2. simpl. split; reflexivity.
Qed.

(** C5.  The Portfolio Comparison and 3-Year Prediction pages run after the
    name [load_data] has been rebound to the definition without a loop: for
    a ticker whose download fails twice and then succeeds they get [None]
    and an [st.error] after the first failure, while the pages bound to the
    retrying definition get the data of the third attempt. *)
Theorem second_load_data_gives_up_on_first_failure :
  Loader.load_data Loader.PortfolioComparison Sample.flaky "AAPL"
  = (None, [st_error "Failed to load data for AAPL: timeout"])
  /\ Loader.load_data Loader.Prediction Sample.flaky "AAPL"
     = (None, [st_error "Failed to load data for AAPL: timeout"])
  /\ value_of (Loader.load_data Loader.SP500 Sample.flaky "AAPL")
     = Some [Sample.day 1 10; Sample.day 2 11]
  /\ existsb is_error (log_of (Loader.load_data Loader.SP500 Sample.flaky "AAPL"))
     = false.
Proof. repeat split; reflexivity. Qed.

(** ** Summary statistics *)

Lemma total_return_zero_open (o c : Q) :
  o == 0 -> 0 < c -> total_return (Fin o) (Fin c) = PInf.
Proof.
  intros Ho Hc. unfold total_return, fsub, fneg, fadd, fdiv.
  rewrite (Qeq_bool_true o 0 Ho).
  assert (Hpos : 0 < c + - o) by (rewrite Ho; setoid_replace (c + - 0) with c by ring; exact Hc).
  rewrite Qeq_bool_false.
  - unfold inf_of_sign. rewrite (Qle_bool_true 0 (c + - o) (Qlt_le_weak _ _ Hpos)).
    reflexivity.
  - intros E. rewrite E in Hpos. exact (Qlt_irrefl 0 Hpos).
Qed.

Lemma cagr_zero_open (rpow : Q -> Q -> Q) (o c : Q) :
  o == 0 -> 0 < c -> cagr rpow (Fin o) (Fin c) = PInf.
Proof.
  intros Ho Hc. unfold cagr, fdiv.
  rewrite (Qeq_bool_true o 0 Ho).
  rewrite Qeq_bool_false.
  - unfold inf_of_sign. rewrite (Qle_bool_true 0 c (Qlt_le_weak _ _ Hc)).
    reflexivity.
  - intros E. rewrite E in Hc. exact (Qlt_irrefl 0 Hc).
Qed.

Lemma cagr_negative_open (rpow : Q -> Q -> Q) (o c : Q) :
  o < 0 -> 0 < c -> cagr rpow (Fin o) (Fin c) = NaN.
Proof.
  intros Ho Hc. unfold cagr, fdiv.
  assert (Hne : ~ o == 0) by (intros E; rewrite E in Ho; exact (Qlt_irrefl 0 Ho)).
  rewrite (Qeq_bool_false o 0 Hne). unfold fpow.
  assert (Hneg : c / o < 0).
  { unfold Qdiv.
    setoid_replace 0 with (c * 0) by ring.
    rewrite Qmult_lt_l by exact Hc.
    setoid_replace (/ o) with (- / - o) by (field; exact Hne).
    assert (0 < / - o).
    { apply Qinv_lt_0_compat. rewrite <- (Qplus_0_l (- o)).
      rewrite <- (Qplus_opp_r o) at 1.
      apply Qplus_lt_l. exact Ho. }
    rewrite <- (Qopp_involutive 0). apply Qopp_lt_compat.
    setoid_replace (- 0) with 0 by ring. assumption. }
  rewrite Qeq_bool_false.
  - rewrite (Qle_bool_false 0 (c / o) Hneg). reflexivity.
  - intros E. rewrite E in Hneg. exact (Qlt_irrefl 0 Hneg).
Qed.

Lemma num_years_nonzero : ~ num_years == 0.
Proof. intros E. vm_compute in E. discriminate. Qed.

Lemma sp500_page_loaded (rpow : Q -> Q -> Q) (annualized_std : list fval -> Q)
  (download : ticker -> nat -> attempt) (r0 : row) (rest : frame) :
  download "^GSPC" 0%nat = Returns (r0 :: rest) ->
  sp500_page rpow annualized_std download
  = (Completed,
     [st_line_chart "Close";
      st_table "" (summary_statistics rpow annualized_std r0 rest)]).
Proof.
  intros Hload. unfold sp500_page, Loader.load_data, Loader.load_data_retry.
  simpl. unfold Loader.try_download. rewrite Hload. reflexivity.
Qed.

(** C4, the claim at a series that opens at 0 and closes at 5: the total
    return is an infinity and the table handed to [st.table] holds cells
    that are not finite. *)
Lemma zero_open_cells_not_finite :
  total_return (Fin 0) (Fin 5) = PInf
  /\ cells_finite
       (summary_statistics Sample.unit_power Sample.variance_252 Sample.zero_open [])
     = false.
Proof. split; reflexivity. Qed.

(** C4, as the code has it.  The statistics are computed with no test of
    the opening value: for a series that opens at 0 or below and closes
    above 0 the page completes and the CAGR cell it hands to [st.table] is
    not finite (an infinity for 0, NaN below 0); when the series opens at 0
    the total return cell is an infinity too. *)
Theorem nonpositive_open_statistics_reach_the_table
  (rpow : Q -> Q -> Q) (annualized_std : list fval -> Q)
  (download : ticker -> nat -> attempt) (r0 : row) (rest : frame) :
  download "^GSPC" 0%nat = Returns (r0 :: rest) ->
  Open r0 <= 0 ->
  0 < Close (last (r0 :: rest) r0) ->
  ~ num_years == 0
  /\ exists cells,
    sp500_page rpow annualized_std download
    = (Completed, [st_line_chart "Close"; st_table "" cells])
    /\ cells_finite cells = false
    /\ (exists v, dict_get "CAGR (%)" cells = Some (Num v) /\ is_finite v = false)
    /\ (Open r0 == 0 ->
        dict_get "Total Return (%)" cells = Some (Num PInf)
        /\ dict_get "CAGR (%)" cells = Some (Num PInf)).
Proof.
  intros Hload Hopen Hclose. split; [exact num_years_nonzero |].
  exists (summary_statistics rpow annualized_std r0 rest).
  split; [apply sp500_page_loaded; exact Hload |].
  assert (Hcagr : exists v,
             cagr rpow (Fin (Open r0)) (Fin (Close (last (r0 :: rest) r0))) = v
             /\ is_finite v = false).
  { destruct (Qlt_le_dec (Open r0) 0) as [Hneg | Hge].
    - exists NaN. split; [apply cagr_negative_open; assumption | reflexivity].
    - exists PInf. split; [| reflexivity].
      apply cagr_zero_open; [apply Qle_antisym; assumption | assumption]. }
  destruct Hcagr as [v [Hv Hfin]].
  split; [| split].
  - unfold summary_statistics, cells_finite. cbn [forallb snd].
    rewrite Hv, Hfin. rewrite !andb_false_r. reflexivity.
  - exists v. split; [| exact Hfin].
    unfold summary_statistics. cbn [dict_get String.eqb Ascii.eqb Bool.eqb].
    rewrite Hv. reflexivity.
  - intros Hzero. unfold summary_statistics.
    cbn [dict_get String.eqb Ascii.eqb Bool.eqb]. split.
    + rewrite total_return_zero_open by assumption. reflexivity.
    + rewrite cagr_zero_open by assumption. reflexivity.
Qed.

Lemma nonpositive_open_statistics_witness :
  ~ num_years == 0
  /\ exists cells,
    sp500_page Sample.unit_power Sample.variance_252
               (fun _ _ => Returns [Sample.zero_open])
    = (Completed, [st_line_chart "Close"; st_table "" cells])
    /\ cells_finite cells = false
    /\ (exists v, dict_get "CAGR (%)" cells = Some (Num v) /\ is_finite v = false)
    /\ (Open Sample.zero_open == 0 ->
        dict_get "Total Return (%)" cells = Some (Num PInf)
        /\ dict_get "CAGR (%)" cells = Some (Num PInf)).
Proof.
  apply (nonpositive_open_statistics_reach_the_table
           Sample.unit_power Sample.variance_252
           (fun _ _ => Returns [Sample.zero_open]) Sample.zero_open []).
  - reflexivity.
  - unfold Qle. simpl. lia.
  - reflexivity.
Defined.

(** ** Trend projection *)

Lemma expected_return_nonzero (horizon : nat) (values : list Q) :
  ~ last values 0 == 0 ->
  expected_return (project horizon values)
  = Fin ((last (prediction (project horizon values)) 0 - last values 0)
         / last values 0 * 100).
Proof.
  intros Hne. unfold project. cbn [expected_return prediction].
  unfold fsub, fneg, fadd, fdiv, fmul.
  rewrite (Qeq_bool_false _ 0 Hne). reflexivity.
Qed.

Lemma expected_return_zero (horizon : nat) (values : list Q) :
  last values 0 == 0 ->
  is_finite (expected_return (project horizon values)) = false.
Proof.
  intros Hz. unfold project. cbn [expected_return].
  unfold fsub, fneg, fadd, fdiv.
  rewrite (Qeq_bool_true _ 0 Hz).
  match goal with |- context [Qeq_bool ?n 0] => destruct (Qeq_bool n 0) end.
  - reflexivity.
  - unfold inf_of_sign.
    match goal with |- context [Qle_bool 0 ?n] => destruct (Qle_bool 0 n) end;
      reflexivity.
Qed.

(** C2.  The values 100, 102, 104, 106 at days 0..3 are fitted exactly:
    the two days after them are predicted at 108 and 110 and the
    coefficient of determination is 1, also as the first two of the 1095
    days the page projects; and whenever the last historical value is not
    zero the expected return is
    [(final_value - initial_value) / initial_value * 100]. *)
Theorem linear_history_is_extrapolated_exactly :
  Forall2 Qeq (prediction (project 2 [100; 102; 104; 106])) [108; 110]
  /\ feq (r_squared (project 2 [100; 102; 104; 106])) (Fin 1)
  /\ Forall2 Qeq (firstn 2 (prediction (project (3 * 365) [100; 102; 104; 106])))
             [108; 110]
  /\ feq (expected_return (project 2 [100; 102; 104; 106]))
         (Fin ((110 - 106) / 106 * 100))
  /\ forall (horizon : nat) (values : list Q),
       ~ last values 0 == 0 ->
       expected_return (project horizon values)
       = Fin ((last (prediction (project horizon values)) 0 - last values 0)
              / last values 0 * 100).
Proof.
  split; [| split; [| split; [| split]]].
  - vm_compute. repeat constructor.
  - vm_compute. reflexivity.
  - vm_compute. repeat constructor.
  - vm_compute. reflexivity.
  - exact expected_return_nonzero.
Qed.

Lemma linear_history_witness :
  expected_return (project 2 [100; 102; 104; 106])
  = Fin ((last (prediction (project 2 [100; 102; 104; 106])) 0
          - last [100; 102; 104; 106] 0)
         / last [100; 102; 104; 106] 0 * 100).
Proof.
  apply (proj2 (proj2 (proj2 (proj2 linear_history_is_extrapolated_exactly)))).
  intros E. vm_compute in E. discriminate.
Defined.

(** C10.  The expected return is computed by an unguarded division by the
    last historical value: when that value is not zero the result is the
    finite number of the formula; when it is zero the result is an infinity
    or NaN; and a history ending at zero exists. *)
Theorem expected_return_needs_nonzero_last_value (horizon : nat) (values : list Q) :
  (~ last values 0 == 0 ->
   expected_return (project horizon values)
   = Fin ((last (prediction (project horizon values)) 0 - last values 0)
          / last values 0 * 100))
  /\ (last values 0 == 0 ->
      is_finite (expected_return (project horizon values)) = false)
  /\ expected_return (project (3 * 365) [1; 0]) = NInf.
Proof.
  split; [apply expected_return_nonzero |].
  split; [apply expected_return_zero |].
  vm_compute. reflexivity.
Qed.

Lemma expected_return_witness :
  is_finite (expected_return (project (3 * 365) [100; 102; 104; 106])) = true
  /\ is_finite (expected_return (project (3 * 365) [1; 0])) = false.
Proof.
  split.
  - rewrite (proj1 (expected_return_needs_nonzero_last_value
                      (3 * 365) [100; 102; 104; 106])).
    + reflexivity.
    + intros E. vm_compute in E. discriminate.
  - apply (proj1 (proj2 (expected_return_needs_nonzero_last_value
                           (3 * 365) [1; 0]))).
    reflexivity.
Defined.

(** ** Row-wise mean of aligned series *)

Lemma in_insert_date (x d : Z) (index : list Z) :
  In x (insert_date d index) <-> x = d \/ In x index.
Proof.
  induction index as [| y index IH]; simpl.
  - intuition.
  - destruct (Z.ltb_spec d y) as [Hlt | Hge]; simpl.
    + intuition.
    + destruct (Z.eqb_spec d y) as [Heq | Hne]; simpl.
      * subst y. intuition.
      * rewrite IH. intuition.
Qed.

Lemma in_index_of_series (x : Z) (s : series) (index : list Z) :
  In x (fold_left (fun i dv => insert_date (fst dv) i) s index)
  <-> In x index \/ In x (map fst s).
Proof.
  revert index. induction s as [| [d v] s IH]; intros index; simpl.
  - intuition.
  - rewrite IH, in_insert_date. simpl. intuition.
Qed.

Lemma in_union_index_from (x : Z) (objs : list series) (index : list Z) :
  In x (fold_left
          (fun index s => fold_left (fun i dv => insert_date (fst dv) i) s index)
          objs index)
  <-> In x index \/ exists s, In s objs /\ In x (map fst s).
Proof.
  revert index. induction objs as [| s objs IH]; intros index; simpl.
  - split; [auto | intros [H | [s [[] _]]]; exact H].
  - rewrite IH, in_index_of_series. split.
    + intros [[H | H] | [s' [Hin Hx]]].
      * left. exact H.
      * right. exists s. auto.
      * right. exists s'. auto.
    + intros [H | [s' [[Heq | Hin] Hx]]].
      * left. left. exact H.
      * subst s'. left. right. exact Hx.
      * right. exists s'. auto.
Qed.

Lemma in_union_index (x : Z) (objs : list series) :
  In x (union_index objs) <-> exists s, In s objs /\ In x (map fst s).
Proof.
  unfold union_index. rewrite in_union_index_from. simpl. intuition.
Qed.

Lemma concat_mean_rows (objs : list series) :
  concat_mean objs
  = map (fun d => (d, row_mean (map (at_date d) objs))) (union_index objs).
Proof. unfold concat_mean, concat_axis1. rewrite map_map. reflexivity. Qed.


Lemma fold_fadd_Fin (qs : list Q) (acc : Q) :
  fold_left fadd (map Fin qs) (Fin acc) = Fin (fold_left Qplus qs acc).
Proof.
  revert acc. induction qs as [| q qs IH]; intros acc; simpl.
  - reflexivity.
  - apply IH.
Qed.


Lemma count_nonzero (n : nat) : ~ inject_Z (Z.of_nat (S n)) == 0.
Proof.
  unfold Qeq. simpl. lia.
Qed.

(** ** Lists and dicts *)

Lemma NoDup_drop_middle {A : Type} (a b c : list A) :
  NoDup (a ++ b ++ c) -> NoDup (a ++ c).
Proof.
  induction b as [| x b IH]; simpl; [auto |].
  intros H. apply IH. exact (NoDup_remove_1 a (b ++ c) x H).
Qed.


(** The first two and the last two entries of a list of four or more
    are taken from disjoint positions. *)
Lemma ends_of_long_list {A : Type} (l : list A) :
  (4 <= List.length l)%nat ->
  l = slice_to 2 l
      ++ firstn (List.length l - 4) (skipn 2 l)
      ++ slice_last 2 l.
Proof.
  intros Hlen. unfold slice_to, slice_last.
  replace (List.length l - 2)%nat with ((List.length l - 4) + 2)%nat by lia.
  rewrite <- skipn_skipn. rewrite firstn_skipn. rewrite firstn_skipn.
  reflexivity.
Qed.

Lemma NoDup_ends {A B : Type} (f : A -> B) (l : list A) :
  (4 <= List.length l)%nat ->
  NoDup (map f l) ->
  NoDup (map f (slice_to 2 l) ++ map f (slice_last 2 l)).
Proof.
  intros Hlen Hnd. rewrite (ends_of_long_list l Hlen) in Hnd.
  rewrite !map_app in Hnd. exact (NoDup_drop_middle _ _ _ Hnd).
Qed.

Lemma sector_stocks_tickers_unique (sp500_companies : dict (string * string))
  (r : list (string * Q)) (sector : string) :
  NoDup (map fst r) ->
  NoDup (map fst (sector_stocks sp500_companies r sector)).
Proof.
  unfold sector_stocks. intros Hunique.
  induction r as [| tv r IH]; simpl; [constructor |].
  simpl in Hunique. apply NoDup_cons_iff in Hunique.
  destruct Hunique as [Hfresh Hrest].
  match goal with
  | |- context [if ?test then _ else _] => destruct test
  end; simpl.
  - apply NoDup_cons_iff. split; [| exact (IH Hrest)].
    intros Hin. apply Hfresh. apply in_map_iff in Hin.
    destruct Hin as [tv' [Heq Hin]]. apply filter_In in Hin.
    apply in_map_iff. exists tv'. tauto.
  - exact (IH Hrest).
Qed.

Lemma in_keys_dict_set {V : Type} (x k : string) (v : V) (d : dict V) :
  In x (keys (dict_set k v d)) <-> x = k \/ In x (keys d).
Proof.
  unfold keys. induction d as [| [k' v'] d IH]; simpl.
  - intuition.
  - destruct (String.eqb_spec k' k) as [Heq | Hne]; simpl.
    + subst k'. intuition.
    + rewrite IH. intuition.
Qed.

Lemma NoDup_keys_dict_set {V : Type} (k : string) (v : V) (d : dict V) :
  NoDup (keys d) -> NoDup (keys (dict_set k v d)).
Proof.
  unfold keys. induction d as [| [k' v'] d IH]; simpl; intros Hnd.
  - constructor; [intros [] | constructor].
  - inversion Hnd as [| y ys Hnotin Hrest]; subst.
    destruct (String.eqb_spec k' k) as [Heq | Hne]; simpl.
    + subst k'. constructor; assumption.
    + constructor; [| apply IH; exact Hrest].
      intros Hin. apply (in_keys_dict_set k' k v d) in Hin.
      destruct Hin as [Heq | Hin]; [congruence | contradiction].
Qed.

Lemma dict_set_nonempty {V : Type} (k : string) (v : V) (d : dict V) :
  dict_set k v d <> [].
Proof.
  destruct d as [| [k' v'] d]; simpl; [discriminate |].
  destruct (String.eqb k' k); discriminate.
Qed.

(** ** The sort *)

Lemma insert_desc_perm (x : string * Q) (l : list (string * Q)) :
  Permutation (insert_desc x l) (x :: l).
Proof.
  induction l as [| y l IH]; simpl; [reflexivity |].
  destruct (Qle_bool (snd y) (snd x)); [reflexivity |].
  rewrite IH. apply perm_swap.
Qed.

Lemma sorted_reverse_perm (items : list (string * Q)) :
  Permutation (sorted_reverse items) items.
Proof.
  induction items as [| x items IH]; simpl; [reflexivity |].
  rewrite insert_desc_perm. apply perm_skip. exact IH.
Qed.

Lemma sorted_reverse_length (items : list (string * Q)) :
  List.length (sorted_reverse items) = List.length items.
Proof. apply Permutation_length, sorted_reverse_perm. Qed.

Lemma insert_desc_sorted (x : string * Q) (l : list (string * Q)) :
  Sorted descending l -> Sorted descending (insert_desc x l).
Proof.
  induction l as [| y l IH]; simpl; intros Hs.
  - repeat constructor.
  - destruct (Qle_bool (snd y) (snd x)) eqn:E.
    + constructor; [exact Hs |]. constructor. apply Qle_bool_iff. exact E.
    + assert (Hlt : snd x <= snd y).
      { destruct (Qlt_le_dec (snd x) (snd y)) as [H | H].
        - apply Qlt_le_weak. exact H.
        - apply Qle_bool_iff in H. congruence. }
      inversion Hs as [| ? ? Hs' Hhd]; subst.
      constructor; [apply IH; exact Hs' |].
      destruct l as [| z l]; simpl.
      * constructor. exact Hlt.
      * destruct (Qle_bool (snd z) (snd x)).
        -- constructor. exact Hlt.
        -- constructor. inversion Hhd; subst. assumption.
Qed.

Lemma sorted_reverse_sorted (items : list (string * Q)) :
  StronglySorted descending (sorted_reverse items).
Proof.
  apply Sorted_StronglySorted.
  - intros a b c Hab Hbc. unfold descending in *. eapply Qle_trans; eassumption.
  - induction items as [| x items IH]; simpl.
    + constructor.
    + apply insert_desc_sorted. exact IH.
Qed.

(** Entries of equal volatility keep the order of the dict. *)
Lemma sorted_reverse_stable_pair (a b : string * Q) :
  snd a == snd b -> sorted_reverse [a; b] = [a; b].
Proof.
  intros E. simpl. rewrite Qle_bool_true; [reflexivity |].
  rewrite E. apply Qle_refl.
Qed.

(** ** Ranking and selection *)

Lemma value_of_bind {A B : Type} (m : ui A) (k : A -> ui B) :
  value_of (bind m k) = value_of (k (value_of m)).
Proof. rewrite bind_value_log. reflexivity. Qed.

Lemma log_of_bind {A B : Type} (m : ui A) (k : A -> ui B) :
  log_of (bind m k) = log_of m ++ log_of (k (value_of m)).
Proof. rewrite bind_value_log. reflexivity. Qed.

Lemma ui_eta {A : Type} (m : ui A) : m = (value_of m, log_of m).
Proof. destruct m. reflexivity. Qed.

Lemma load_error_is_not_no_valid_data (e : ui_event) :
  load_error e -> e <> no_valid_data.
Proof.
  intros [t [msg He]] Heq. subst e. unfold no_valid_data in Heq.
  simpl in Heq. discriminate.
Qed.

Section SelectionFacts.

Variable annualized_std : list fval -> Q.
Variable set_order : list string -> list string.
Variable sp500_companies : dict (string * string).
Variable download : ticker -> nat -> attempt.

Local Abbreviation volatilities_from tickers seed :=
  (Reused.volatility_loop annualized_std download tickers seed).
Local Abbreviation volatilities :=
  (value_of (volatilities_from (keys sp500_companies) [])).
Local Abbreviation ranking :=
  (value_of (Reused.ranking annualized_std sp500_companies download)).
Local Abbreviation sectors :=
  (set_order (map (sector_of sp500_companies) (keys sp500_companies))).
Local Abbreviation get_portfolios :=
  (Reused.get_portfolios annualized_std set_order sp500_companies download).
Local Abbreviation selection :=
  (Comparison.selection annualized_std set_order sp500_companies download).

Lemma load_data_once_cases (t : ticker) :
  (exists d, Loader.try_download (download t) t 0 = inr d
             /\ Reused.load_data download t = (Some d, []))
  \/ (exists e, Loader.try_download (download t) t 0 = inl e
                /\ Reused.load_data download t
                   = (None, [st_error ("Failed to load data for " +++ t +++ ": " +++ e)])).
Proof.
  unfold Reused.load_data, Loader.load_data, Loader.load_data_once.
  destruct (Loader.try_download (download t) t 0) as [e | d].
  - right. exists e. split; reflexivity.
  - left. exists d. split; reflexivity.
Qed.

Lemma load_data_log (t : ticker) :
  Forall load_error (log_of (Reused.load_data download t)).
Proof.
  destruct (load_data_once_cases t) as [[d [_ H]] | [e [_ H]]]; rewrite H; simpl.
  - constructor.
  - constructor; [| constructor]. exists t, e. reflexivity.
Qed.

Lemma volatility_loop_same (tickers : list ticker) (seed : dict Q) :
  Comparison.volatility_loop annualized_std download tickers seed
  = volatilities_from tickers seed.
Proof.
  revert seed. induction tickers as [| t tickers IH]; intros seed; simpl.
  - reflexivity.
  - change (Comparison.load_data download t) with (Reused.load_data download t).
    unfold bind. destruct (Reused.load_data download t) as [[d |] l1];
      rewrite IH; reflexivity.
Qed.

Lemma sector_loop_same (r : list (string * Q)) (l : list string) (acc : list ticker) :
  Comparison.sector_loop sp500_companies r l acc
  = Reused.sector_loop sp500_companies r l acc.
Proof.
  revert acc. induction l as [| s l IH]; intros acc; simpl.
  - reflexivity.
  - apply IH.
Qed.

Lemma sector_loop_flat_map (r : list (string * Q)) (l : list string)
  (acc : list ticker) :
  Reused.sector_loop sp500_companies r l acc
  = acc ++ flat_map (contribution sp500_companies r) l.
Proof.
  revert acc. induction l as [| s l IH]; intros acc; simpl.
  - rewrite app_nil_r. reflexivity.
  - rewrite IH. unfold contribution, sector_stocks.
    rewrite <- !app_assoc. reflexivity.
Qed.

Lemma volatility_loop_step (t : ticker) (tickers : list ticker) (seed : dict Q) :
  value_of (volatilities_from (t :: tickers) seed)
  = match value_of (Reused.load_data download t) with
    | Some d =>
        value_of (volatilities_from tickers
                    (dict_set t (annualized_std (pct_change (map Close d))) seed))
    | None => value_of (volatilities_from tickers seed)
    end.
Proof.
  simpl. rewrite value_of_bind.
  destruct (value_of (Reused.load_data download t)); reflexivity.
Qed.

Lemma volatility_loop_log (tickers : list ticker) (seed : dict Q) :
  Forall load_error (log_of (volatilities_from tickers seed)).
Proof.
  revert seed. induction tickers as [| t tickers IH]; intros seed; simpl.
  - constructor.
  - rewrite log_of_bind. apply Forall_app. split; [apply load_data_log |].
    destruct (value_of (Reused.load_data download t)); apply IH.
Qed.

Lemma volatility_loop_keys (tickers : list ticker) (seed : dict Q) :
  NoDup (keys seed) -> NoDup (keys (value_of (volatilities_from tickers seed))).
Proof.
  revert seed. induction tickers as [| t tickers IH]; intros seed Hnd.
  - exact Hnd.
  - rewrite volatility_loop_step.
    destruct (value_of (Reused.load_data download t)).
    + apply IH. apply NoDup_keys_dict_set. exact Hnd.
    + apply IH. exact Hnd.
Qed.

Lemma volatility_loop_keeps_entries (tickers : list ticker) (seed : dict Q) :
  seed <> [] -> value_of (volatilities_from tickers seed) <> [].
Proof.
  revert seed. induction tickers as [| t tickers IH]; intros seed Hne.
  - exact Hne.
  - rewrite volatility_loop_step.
    destruct (value_of (Reused.load_data download t)).
    + apply IH. apply dict_set_nonempty.
    + apply IH. exact Hne.
Qed.

Lemma volatility_loop_all_fail (tickers : list ticker) (seed : dict Q) :
  (forall t, In t tickers ->
             exists e, Loader.try_download (download t) t 0 = inl e) ->
  value_of (volatilities_from tickers seed) = seed.
Proof.
  revert seed. induction tickers as [| t tickers IH]; intros seed Hfail.
  - reflexivity.
  - rewrite volatility_loop_step.
    destruct (load_data_once_cases t) as [[d [Hd _]] | [e [_ He]]].
    + destruct (Hfail t (or_introl eq_refl)) as [e He]. congruence.
    + rewrite He. simpl. apply IH. intros t' Hin. apply Hfail. right. exact Hin.
Qed.

Lemma volatility_loop_some_loads (tickers : list ticker) (seed : dict Q)
  (t : ticker) (d : frame) :
  In t tickers ->
  Loader.try_download (download t) t 0 = inr d ->
  value_of (volatilities_from tickers seed) <> [].
Proof.
  revert seed. induction tickers as [| t' tickers IH]; intros seed Hin Hload.
  - contradiction.
  - rewrite volatility_loop_step.
    destruct (load_data_once_cases t') as [[d' [_ Hd']] | [e [He Hnone]]].
    + rewrite Hd'. simpl. apply volatility_loop_keeps_entries.
      apply dict_set_nonempty.
    + rewrite Hnone. simpl. apply IH; [| exact Hload].
      destruct Hin as [Heq | Hin]; [| exact Hin].
      subst t'. congruence.
Qed.

Lemma ranking_value : ranking = sorted_reverse volatilities.
Proof. unfold Reused.ranking. rewrite value_of_bind. reflexivity. Qed.

Lemma ranking_log :
  log_of (Reused.ranking annualized_std sp500_companies download)
  = log_of (volatilities_from (keys sp500_companies) []).
Proof.
  unfold Reused.ranking. rewrite log_of_bind. simpl. apply app_nil_r.
Qed.

Lemma ranking_empty_iff : ranking = [] <-> volatilities = [].
Proof.
  rewrite ranking_value. split; intros H.
  - apply length_zero_iff_nil. rewrite <- sorted_reverse_length, H. reflexivity.
  - rewrite H. reflexivity.
Qed.

Lemma ranking_tickers_unique : NoDup (map fst ranking).
Proof.
  rewrite ranking_value.
  apply (Permutation_NoDup (l := map fst volatilities)).
  - apply Permutation_map. symmetry. apply sorted_reverse_perm.
  - apply (volatility_loop_keys (keys sp500_companies) []). constructor.
Qed.

Lemma get_portfolios_value :
  value_of get_portfolios
  = [ ("Aggressive", map fst (slice_to 5 ranking));
      ("Low-Risk", map fst (slice_last 100 ranking));
      ("Diversified", flat_map (contribution sp500_companies ranking) sectors) ].
Proof.
  unfold Reused.get_portfolios. rewrite value_of_bind. simpl.
  rewrite sector_loop_flat_map. reflexivity.
Qed.

Lemma get_portfolios_log :
  log_of get_portfolios = log_of (volatilities_from (keys sp500_companies) []).
Proof.
  unfold Reused.get_portfolios. rewrite log_of_bind. simpl.
  rewrite app_nil_r. apply ranking_log.
Qed.

Lemma selection_cases :
  selection
  = match volatilities with
    | [] => (None, log_of get_portfolios ++ [no_valid_data])
    | _ :: _ => (Some (value_of get_portfolios), log_of get_portfolios)
    end.
Proof.
  rewrite get_portfolios_log.
  unfold Comparison.selection. rewrite volatility_loop_same.
  rewrite bind_value_log.
  destruct volatilities as [| tv vols] eqn:E.
  - reflexivity.
  - simpl. rewrite app_nil_r. f_equal. f_equal.
    rewrite get_portfolios_value, ranking_value, E.
    rewrite sector_loop_same, sector_loop_flat_map. reflexivity.
Qed.

End SelectionFacts.

Lemma in_slice_to {A : Type} (n : nat) (l : list A) (x : A) :
  In x (slice_to n l) -> In x l.
Proof.
  unfold slice_to. intros Hin. rewrite <- (firstn_skipn n l).
  apply in_or_app. left. exact Hin.
Qed.

Lemma in_slice_last {A : Type} (n : nat) (l : list A) (x : A) :
  In x (slice_last n l) -> In x l.
Proof.
  unfold slice_last. intros Hin.
  rewrite <- (firstn_skipn (List.length l - n) l).
  apply in_or_app. right. exact Hin.
Qed.

Lemma NoDup_flat_map_by_class {A B : Type} (f : A -> list B) (class : B -> A)
  (l : list A) :
  NoDup l ->
  (forall a, In a l -> NoDup (f a)) ->
  (forall a b, In b (f a) -> class b = a) ->
  NoDup (flat_map f l).
Proof.
  intros Hnd Heach Hclass. induction l as [| a l IH]; simpl.
  - constructor.
  - inversion Hnd as [| ? ? Hnotin Hrest]; subst.
    apply NoDup_app.
    + apply Heach. left. reflexivity.
    + apply IH; [exact Hrest |]. intros a' Hin. apply Heach. right. exact Hin.
    + intros b Hb Hb'. apply in_flat_map in Hb'.
      destruct Hb' as [a' [Hin' Hb']].
      apply Hclass in Hb. apply Hclass in Hb'. subst. contradiction.
Qed.

Lemma contribution_sector (sp500_companies : dict (string * string))
  (r : list (string * Q)) (sector : string) (t : ticker) :
  In t (contribution sp500_companies r sector) ->
  sector_of sp500_companies t = sector.
Proof.
  unfold contribution. intros Hin.
  assert (Hstock : exists tv,
             In tv (sector_stocks sp500_companies r sector) /\ fst tv = t).
  { apply in_app_or in Hin. destruct Hin as [Hin | Hin];
      apply in_map_iff in Hin; destruct Hin as [tv [Ht Hin]]; exists tv;
      (split; [| exact Ht]).
    - exact (in_slice_to _ _ _ Hin).
    - exact (in_slice_last _ _ _ Hin). }
  destruct Hstock as [tv [Hin' Ht]]. unfold sector_stocks in Hin'.
  apply filter_In in Hin'. destruct Hin' as [_ Heq].
  apply String.eqb_eq in Heq. subst t. exact Heq.
Qed.

Lemma portfolio_lookup (a l d : list ticker) :
  dict_get "Aggressive" [("Aggressive", a); ("Low-Risk", l); ("Diversified", d)]
  = Some a
  /\ dict_get "Low-Risk" [("Aggressive", a); ("Low-Risk", l); ("Diversified", d)]
     = Some l
  /\ dict_get "Diversified" [("Aggressive", a); ("Low-Risk", l); ("Diversified", d)]
     = Some d.
Proof. repeat split; reflexivity. Qed.

Section SelectionClaims.

Variable rpow : Q -> Q -> Q.
Variable annualized_std : list fval -> Q.
Variable set_order : list string -> list string.
Variable sp500_companies : dict (string * string).
Variable download : ticker -> nat -> attempt.

Local Abbreviation ranking :=
  (value_of (Reused.ranking annualized_std sp500_companies download)).
Local Abbreviation sectors :=
  (set_order (map (sector_of sp500_companies) (keys sp500_companies))).
Local Abbreviation get_portfolios :=
  (Reused.get_portfolios annualized_std set_order sp500_companies download).
Local Abbreviation selection :=
  (Comparison.selection annualized_std set_order sp500_companies download).


(** C1, as the code has it.  Diversified is the concatenation, sector by
    sector, of the first two and the last two tickers of the sector's part
    of the ranking, and nothing is removed from it.  It is free of
    duplicates when every sector has no ranked member or at least four; a
    sector with exactly three ranked members adds four entries, its middle
    ticker twice, hence three distinct tickers. *)
Theorem diversified_concatenates_sector_ends :
  (forall xs, NoDup (set_order xs)) ->
  dict_get "Diversified" (value_of get_portfolios)
  = Some (flat_map (contribution sp500_companies ranking) sectors)
  /\ ((forall sector,
          In sector sectors ->
          sector_stocks sp500_companies ranking sector = []
          \/ (4 <= List.length (sector_stocks sp500_companies ranking sector))%nat) ->
      NoDup (flat_map (contribution sp500_companies ranking) sectors))
  /\ (forall sector,
         List.length (sector_stocks sp500_companies ranking sector) = 3%nat ->
         exists a b c,
           contribution sp500_companies ranking sector = [a; b; b; c]
           /\ NoDup [a; b; c]).
Proof.
  intros Hset. split; [| split].
  - rewrite get_portfolios_value. apply portfolio_lookup.
  - intros Hsize.
    apply (NoDup_flat_map_by_class _ (sector_of sp500_companies)).
    + apply Hset.
    + intros sector Hin. unfold contribution.
      destruct (Hsize sector Hin) as [Hnone | Hmany].
      * rewrite Hnone. constructor.
      * apply NoDup_ends; [exact Hmany |].
        apply sector_stocks_tickers_unique.
        apply ranking_tickers_unique.
    + intros sector t. apply contribution_sector.
  - intros sector Hlen.
    assert (Hnd : NoDup (map fst (sector_stocks sp500_companies ranking sector))).
    { apply sector_stocks_tickers_unique. apply ranking_tickers_unique. }
    unfold contribution.
    destruct (sector_stocks sp500_companies ranking sector)
      as [| x [| y [| z [| w l]]]]; try discriminate.
    exists (fst x), (fst y), (fst z). split; [reflexivity | exact Hnd].
Qed.

(** C9, as the code has it.  Whenever the ranking is not empty the
    Portfolio Comparison page and [get_portfolios] build the same three
    lists and show the same messages. *)
Theorem selection_agrees_with_get_portfolios :
  ranking <> [] ->
  value_of selection = Some (value_of get_portfolios)
  /\ log_of selection = log_of get_portfolios.
Proof.
  intros Hne. rewrite selection_cases.
  destruct (value_of (Reused.volatility_loop annualized_std download
                        (keys sp500_companies) [])) eqn:E.
  - exfalso. apply Hne. apply ranking_empty_iff. exact E.
  - split; reflexivity.
Qed.

(** If a ticker of the table loads, the ranking is not empty. *)
Lemma ranking_nonempty_when_a_ticker_loads (t : ticker) (d : frame) :
  In t (keys sp500_companies) ->
  Loader.try_download (download t) t 0 = inr d ->
  ranking <> [].
Proof.
  intros Hin Hload Hempty. apply ranking_empty_iff in Hempty.
  exact (volatility_loop_some_loads annualized_std download _ [] t d Hin Hload Hempty).
Qed.

Lemma prediction_loop_empty_portfolios :
  PredictionPage.portfolio_loop download empty_portfolios = (Completed, []).
Proof. reflexivity. Qed.

(** C7.  When no ticker of the table loads the ranking is empty.  The
    Portfolio Comparison page then stops at its error message and draws
    nothing.  [get_portfolios] has no such test: it returns three empty
    portfolios and the 3-Year Prediction page completes, its log holding
    the loader's message for each ticker and no message for the empty
    ranking. *)
Theorem empty_ranking_is_not_reported_by_get_portfolios :
  (forall t, In t (keys sp500_companies) ->
             exists e, Loader.try_download (download t) t 0 = inl e) ->
  ranking = []
  /\ value_of selection = None
  /\ In no_valid_data (log_of selection)
  /\ ComparisonPage.page rpow annualized_std set_order sp500_companies download
     = (tt, log_of selection)
  /\ existsb is_chart (log_of selection) = false
  /\ value_of get_portfolios = empty_portfolios
  /\ ~ In no_valid_data (log_of get_portfolios)
  /\ Forall load_error (log_of get_portfolios)
  /\ (forall r0 rest,
         download "^GSPC" 0%nat = Returns (r0 :: rest) ->
         PredictionPage.page annualized_std set_order sp500_companies download
         = (Completed, log_of get_portfolios)).
Proof.
  intros Hfail.
  pose proof (volatility_loop_all_fail annualized_std download
                (keys sp500_companies) [] Hfail) as Hvol.
  assert (Hrank : ranking = []) by (apply ranking_empty_iff; exact Hvol).
  assert (Hlog : Forall load_error (log_of get_portfolios)).
  { rewrite get_portfolios_log. apply volatility_loop_log. }
  assert (Hvalue : value_of get_portfolios = empty_portfolios).
  { rewrite get_portfolios_value, Hrank. unfold empty_portfolios.
    f_equal. f_equal. f_equal. f_equal.
    induction sectors as [| s l IH]; [reflexivity | exact IH]. }
  assert (Hsel : selection = (None, log_of get_portfolios ++ [no_valid_data])).
  { rewrite selection_cases, Hvol. reflexivity. }
  split; [exact Hrank |]. split; [rewrite Hsel; reflexivity |].
  split; [rewrite Hsel; simpl; apply in_or_app; right; left; reflexivity |].
  split; [| split; [| split; [| split; [| split]]]].
  - unfold ComparisonPage.page. rewrite Hsel. simpl.
    rewrite app_nil_r. reflexivity.
  - rewrite Hsel. simpl. rewrite existsb_app. simpl. rewrite orb_false_r.
    apply not_true_is_false. intros Hex. apply existsb_exists in Hex.
    destruct Hex as [e [Hin Hchart]].
    rewrite Forall_forall in Hlog. destruct (Hlog e Hin) as [t [msg He]].
    subst e. discriminate.
  - exact Hvalue.
  - intros Hin. rewrite Forall_forall in Hlog.
    exact (load_error_is_not_no_valid_data _ (Hlog _ Hin) eq_refl).
  - exact Hlog.
  - intros r0 rest Hload. unfold PredictionPage.page.
    assert (Hindex : Reused.load_data download "^GSPC" = (Some (r0 :: rest), [])).
    { unfold Reused.load_data, Loader.load_data, Loader.load_data_once,
        Loader.try_download. rewrite Hload. reflexivity. }
    rewrite Hindex. rewrite bind_value_log. simpl.
    rewrite bind_value_log, Hvalue, prediction_loop_empty_portfolios.
    simpl. rewrite app_nil_r. reflexivity.
Qed.

End SelectionClaims.

Lemma sample_frames_regular (t : ticker) (d : frame) :
  In t (keys Sample.companies_X) ->
  Loader.try_download (Sample.download_X t) t 0 = inr d ->
  regular_frame d.
Proof.
  intros Hin Hload. vm_compute in Hin.
  destruct Hin as [<- | [<- | [<- | []]]]; vm_compute in Hload;
    injection Hload as <-;
    (split; [simpl; lia |]);
    repeat constructor; intros E; vm_compute in E; discriminate.
Qed.


(** C1, the claim at three companies of one sector with volatilities
    B > C > A: the Diversified list names C twice. *)
Lemma diversified_repeats_middle_ticker :
  dict_get "Diversified"
    (value_of (Reused.get_portfolios Sample.variance_252 Sample.first_seen
                 Sample.companies_X Sample.download_X))
  = Some ["B"; "C"; "C"; "A"]
  /\ ~ NoDup ["B"; "C"; "C"; "A"].
Proof.
  split; [vm_compute; reflexivity |].
  intros Hnd. inversion Hnd as [| ? ? _ Hrest]; subst.
  inversion Hrest as [| ? ? Hnotin _]; subst.
  apply Hnotin. left. reflexivity.
Qed.

Lemma diversified_witness :
  exists a b c,
    contribution Sample.companies_X
      (value_of (Reused.ranking Sample.variance_252 Sample.companies_X
                   Sample.download_X)) "X"
    = [a; b; b; c]
    /\ NoDup [a; b; c].
Proof.
  apply (proj2 (proj2 (diversified_concatenates_sector_ends
                         Sample.variance_252 Sample.first_seen Sample.companies_X
                         Sample.download_X
                         (fun xs => NoDup_nodup string_dec xs))) "X").
  vm_compute. reflexivity.
Defined.

(** C9, the claim when nothing loads: the page defines no portfolios,
    [get_portfolios] returns three empty ones. *)
Lemma selection_differs_when_nothing_loads :
  value_of (Comparison.selection Sample.variance_252 Sample.first_seen
              Sample.companies_X Sample.no_data)
  = None
  /\ value_of (Reused.get_portfolios Sample.variance_252 Sample.first_seen
                 Sample.companies_X Sample.no_data)
     = empty_portfolios.
Proof. split; vm_compute; reflexivity. Qed.

Lemma selection_agrees_witness :
  value_of (Comparison.selection Sample.variance_252 Sample.first_seen
              Sample.companies_X Sample.download_X)
  = Some (value_of (Reused.get_portfolios Sample.variance_252 Sample.first_seen
                      Sample.companies_X Sample.download_X))
  /\ log_of (Comparison.selection Sample.variance_252 Sample.first_seen
               Sample.companies_X Sample.download_X)
     = log_of (Reused.get_portfolios Sample.variance_252 Sample.first_seen
                 Sample.companies_X Sample.download_X).
Proof.
  apply (selection_agrees_with_get_portfolios
           Sample.variance_252 Sample.first_seen Sample.companies_X
           Sample.download_X).
  vm_compute. discriminate.
Defined.

Lemma empty_ranking_witness :
  value_of (Reused.get_portfolios Sample.variance_252 Sample.first_seen
              Sample.companies_X Sample.index_only)
  = empty_portfolios
  /\ PredictionPage.page Sample.variance_252 Sample.first_seen
       Sample.companies_X Sample.index_only
     = (Completed,
        log_of (Reused.get_portfolios Sample.variance_252 Sample.first_seen
                  Sample.companies_X Sample.index_only)).
Proof.
  assert (Hfail : forall t,
             In t (keys Sample.companies_X) ->
             exists e,
               Loader.try_download (Sample.index_only t) t 0 = inl e).
  { intros t Hin. vm_compute in Hin.
    destruct Hin as [<- | [<- | [<- | []]]]; eexists; reflexivity. }
  pose proof (empty_ranking_is_not_reported_by_get_portfolios
                Sample.unit_power Sample.variance_252 Sample.first_seen
                Sample.companies_X Sample.index_only Hfail)
    as (_ & _ & _ & _ & _ & Hvalue & _ & _ & Hpage).
  split; [exact Hvalue |].
  apply (Hpage (Sample.day 1 1) [Sample.day 2 1; Sample.day 3 1]).
  reflexivity.
Defined.

(** ** The projection of one portfolio *)

Lemma values_loop_log (download : ticker -> nat -> attempt)
  (tickers : list ticker) (combined_values : list series) :
  Forall load_error
         (log_of (PredictionPage.values_loop download tickers combined_values)).
Proof.
  revert combined_values.
  induction tickers as [| t tickers IH]; intros combined_values; simpl.
  - constructor.
  - rewrite log_of_bind. apply Forall_app. split; [apply load_data_log |].
    destruct (value_of (Reused.load_data download t)); apply IH.
Qed.

Lemma fit_single_sample (v : Q) :
  coef (fit (day_range 0 1) [v]) = 0
  /\ intercept (fit (day_range 0 1) [v]) == v.
Proof.
  unfold fit, day_range. cbn [seq map combine List.length Qmean Qsum fst snd].
  match goal with
  | |- context [Qeq_bool ?s 0] =>
      assert (Hs : Qeq_bool s 0 = true) by (vm_compute; reflexivity)
  end.
  rewrite Hs. cbn [coef intercept]. split; [reflexivity |].
  unfold Qmean. cbn [Qsum List.length]. field.
Qed.

(** C6, the claim at a portfolio whose only constituent has one trading
    day, and at one whose only constituent does not load: the first is
    projected, with an expected return and a coefficient of determination
    that is NaN; the second is skipped and the log holds the loader's
    message only. *)
Lemma single_point_is_projected :
  PredictionPage.portfolio_block Sample.one_day "Aggressive" ["A"]
  = (Completed, projection_events "Aggressive" (project (3 * 365) [100]))
  /\ r_squared (project (3 * 365) [100]) = NaN
  /\ PredictionPage.portfolio_block Sample.no_data "Aggressive" ["A"]
     = (Completed, [st_error "Failed to load data for A: timeout"]).
Proof. repeat split; vm_compute; reflexivity. Qed.

Lemma close_series_is_price_series (data : frame) :
  price_series (close_series data).
Proof.
  unfold price_series, close_series. apply Forall_forall. intros dv Hin.
  apply in_map_iff in Hin. destruct Hin as [r [<- _]]. reflexivity.
Qed.

Lemma values_loop_price_series (download : ticker -> nat -> attempt)
  (tickers : list ticker) (combined_values : list series) :
  Forall price_series combined_values ->
  Forall price_series
         (value_of (PredictionPage.values_loop download tickers combined_values)).
Proof.
  revert combined_values.
  induction tickers as [| t tickers IH]; intros combined_values Hall; simpl.
  - exact Hall.
  - rewrite value_of_bind.
    destruct (value_of (Reused.load_data download t)) as [d |]; apply IH.
    + apply Forall_app. split; [exact Hall |].
      constructor; [apply close_series_is_price_series | constructor].
    + exact Hall.
Qed.

Lemma at_date_price_series (d : Z) (s : series) :
  price_series s ->
  (In d (map fst s) -> is_finite (at_date d s) = true)
  /\ (is_nan (at_date d s) = false -> is_finite (at_date d s) = true).
Proof.
  unfold price_series. induction s as [| [d' v] s IH]; intros Hall; simpl.
  - split; [contradiction | discriminate].
  - inversion Hall as [| ? ? Hv Hrest]; subst. simpl in Hv.
    destruct (Z.eqb_spec d' d) as [Heq | Hne].
    + split; intros _; exact Hv.
    + destruct (IH Hrest) as [Hin Hnan]. split; [| exact Hnan].
      intros [Heq | Hd]; [contradiction | exact (Hin Hd)].
Qed.

Lemma present_finite (cells : list fval) :
  Forall (fun v => is_nan v = false -> is_finite v = true) cells ->
  exists qs, present cells = map Fin qs.
Proof.
  unfold present. induction cells as [| v cells IH]; intros Hall; simpl.
  - exists []. reflexivity.
  - inversion Hall as [| ? ? Hv Hrest]; subst.
    destruct (IH Hrest) as [qs Hqs].
    destruct v as [q | | |]; simpl.
    + exists (q :: qs). rewrite Hqs. reflexivity.
    + specialize (Hv eq_refl). discriminate.
    + specialize (Hv eq_refl). discriminate.
    + exists qs. exact Hqs.
Qed.

Lemma present_nonempty (cells : list fval) (v : fval) :
  In v cells -> is_finite v = true -> present cells <> [].
Proof.
  intros Hin Hfin Hnone.
  assert (Hp : In v (present cells)).
  { unfold present. apply filter_In. split; [exact Hin |].
    destruct v; [reflexivity | discriminate ..]. }
  rewrite Hnone in Hp. contradiction.
Qed.

Lemma row_mean_of_prices (objs : list series) (d : Z) :
  Forall price_series objs ->
  In d (union_index objs) ->
  is_finite (row_mean (map (at_date d) objs)) = true.
Proof.
  intros Hall Hin. apply in_union_index in Hin. destruct Hin as [s [Hs Hd]].
  rewrite Forall_forall in Hall.
  destruct (present_finite (map (at_date d) objs)) as [qs Hqs].
  { apply Forall_forall. intros v Hv. apply in_map_iff in Hv.
    destruct Hv as [s' [<- Hs']].
    exact (proj2 (at_date_price_series d s' (Hall s' Hs'))). }
  assert (Hne : present (map (at_date d) objs) <> []).
  { apply (present_nonempty _ (at_date d s)).
    - apply in_map. exact Hs.
    - exact (proj1 (at_date_price_series d s (Hall s Hs)) Hd). }
  unfold row_mean. rewrite Hqs in *.
  destruct qs as [| q qs]; [contradiction |].
  cbn [map]. unfold fsum.
  change (Fin q :: map Fin qs) with (map Fin (q :: qs)).
  rewrite fold_fadd_Fin, length_map. cbn [List.length]. unfold fdiv.
  rewrite (Qeq_bool_false _ 0 (count_nonzero (List.length qs))). reflexivity.
Qed.

Lemma finite_values_total (l : list fval) :
  Forall (fun v => is_finite v = true) l ->
  exists qs, finite_values l = Some qs /\ List.length qs = List.length l.
Proof.
  induction l as [| v l IH]; intros Hall; simpl.
  - exists []. split; reflexivity.
  - inversion Hall as [| ? ? Hv Hrest]; subst.
    destruct (IH Hrest) as [qs [Hqs Hlen]].
    destruct v; try discriminate.
    rewrite Hqs. eexists. split; [reflexivity |]. simpl. rewrite Hlen. reflexivity.
Qed.

Lemma portfolio_values_are_finite (objs : list series) :
  Forall price_series objs ->
  exists values,
    finite_values (map snd (concat_mean objs)) = Some values
    /\ List.length values = List.length (union_index objs).
Proof.
  intros Hall.
  destruct (finite_values_total (map snd (concat_mean objs))) as [qs [Hqs Hlen]].
  - rewrite concat_mean_rows, map_map. simpl. apply Forall_forall.
    intros v Hv. apply in_map_iff in Hv. destruct Hv as [d [<- Hd]].
    apply row_mean_of_prices; assumption.
  - exists qs. split; [exact Hqs |].
    rewrite Hlen, concat_mean_rows, !length_map. reflexivity.
Qed.

(** C6, as the code has it.  The only test is that a constituent loaded:
    a portfolio none of whose constituents loaded is skipped and the log
    holds nothing but the loader's messages; any other portfolio is
    projected from the values of its series, one per date, whatever their
    number, and the block completes; for a series of one point the
    predictions equal that point and the coefficient of determination is
    NaN. *)
Theorem projection_is_skipped_only_without_constituents
  (download : ticker -> nat -> attempt) (portfolio_name : string)
  (tickers : list ticker) :
  let loaded := PredictionPage.values_loop download tickers [] in
  (value_of loaded = [] ->
   PredictionPage.portfolio_block download portfolio_name tickers
   = (Completed, log_of loaded))
  /\ (value_of loaded <> [] ->
      exists values,
        finite_values (map snd (concat_mean (value_of loaded))) = Some values
        /\ List.length values = List.length (union_index (value_of loaded))
        /\ PredictionPage.portfolio_block download portfolio_name tickers
           = (Completed,
              log_of loaded
              ++ projection_events portfolio_name (project (3 * 365) values)))
  /\ Forall load_error (log_of loaded)
  /\ (forall (horizon : nat) (v : Q),
         r_squared (project horizon [v]) = NaN
         /\ Forall (fun x => x == v) (prediction (project horizon [v]))).
Proof.
  intros loaded. split; [| split; [| split]].
  - intros Hnone. unfold PredictionPage.portfolio_block.
    fold loaded. rewrite bind_value_log, Hnone. simpl.
    rewrite app_nil_r. reflexivity.
  - intros Hsome.
    destruct (portfolio_values_are_finite (value_of loaded)) as [values [Hv Hlen]].
    { apply values_loop_price_series. constructor. }
    exists values. split; [exact Hv |]. split; [exact Hlen |].
    unfold PredictionPage.portfolio_block.
    fold loaded. rewrite bind_value_log.
    destruct (value_of loaded) as [| s ss] eqn:E; [contradiction |].
    rewrite Hv. reflexivity.
  - apply values_loop_log.
  - intros horizon v. split; [reflexivity |].
    unfold project. cbn [prediction List.length].
    destruct (fit_single_sample v) as [Hcoef Hintercept].
    unfold predict. apply Forall_forall. intros x Hin.
    apply in_map_iff in Hin. destruct Hin as [d [Hx _]]. subst x.
    rewrite Hcoef, Hintercept. ring.
Qed.

Lemma projection_witness :
  PredictionPage.portfolio_block Sample.no_data "Aggressive" ["A"]
  = (Completed,
     log_of (PredictionPage.values_loop Sample.no_data ["A"] []))
  /\ exists values,
       finite_values
         (map snd (concat_mean
                     (value_of (PredictionPage.values_loop Sample.one_day ["A"] []))))
       = Some values
       /\ List.length values
          = List.length
              (union_index
                 (value_of (PredictionPage.values_loop Sample.one_day ["A"] [])))
       /\ PredictionPage.portfolio_block Sample.one_day "Aggressive" ["A"]
          = (Completed,
             log_of (PredictionPage.values_loop Sample.one_day ["A"] [])
             ++ projection_events "Aggressive" (project (3 * 365) values)).
Proof.
  split.
  - apply (proj1 (projection_is_skipped_only_without_constituents
                    Sample.no_data "Aggressive" ["A"])).
    reflexivity.
  - apply (proj1 (proj2 (projection_is_skipped_only_without_constituents
                           Sample.one_day "Aggressive" ["A"]))).
    vm_compute. discriminate.
Defined.

(** * Further properties of the script *)

(** ** The retry loop *)

Lemma bind_emit {A : Type} (e : ui_event) (m : ui A) :
  bind (emit e) (fun _ => m) = (value_of m, e :: log_of m).
Proof. destruct m. reflexivity. Qed.

Lemma try_download_not_empty (download : nat -> attempt) (tkr : ticker)
  (k : nat) (data : frame) :
  Loader.try_download download tkr k = inr data -> data <> [].
Proof.
  unfold Loader.try_download. destruct (download k) as [msg | d].
  - discriminate.
  - destruct d as [| r d]; simpl; [discriminate |].
    intros E. injection E as <-. discriminate.
Qed.

Lemma retry_loop_exhausted (download : nat -> attempt) (tkr : ticker)
  (max_retries retry_delay fuel attempt : nat) :
  (forall k, (attempt <= k < attempt + fuel)%nat ->
             exists e, Loader.try_download download tkr k = inl e) ->
  let run := Loader.retry_loop download tkr max_retries retry_delay fuel attempt in
  value_of run = None
  /\ List.length (filter is_warning (log_of run)) = fuel
  /\ seconds_slept (log_of run) = (fuel * retry_delay)%nat
  /\ filter is_error (log_of run)
     = [st_error ("Failed to load data for " +++ tkr +++ " after "
                  +++ show_nat max_retries +++ " attempts.")].
Proof.
  revert attempt. induction fuel as [| fuel IH]; intros attempt Hfail run.
  - repeat split; reflexivity.
  - destruct (Hfail attempt ltac:(lia)) as [e He].
    destruct (IH (S attempt)) as (Hv & Hw & Hs & Herr).
    { intros k Hk. apply Hfail. lia. }
    unfold run. cbn [Loader.retry_loop]. rewrite He.
    rewrite !bind_emit. cbn [value_of log_of fst snd filter is_warning is_error
                              seconds_slept List.length].
    rewrite Hv, Hw, Hs, Herr. repeat split; reflexivity.
Qed.

Lemma retry_loop_first_success (download : nat -> attempt) (tkr : ticker)
  (max_retries retry_delay : nat) (data : frame) (k fuel attempt : nat) :
  (k < fuel)%nat ->
  (forall j, (attempt <= j < attempt + k)%nat ->
             exists e, Loader.try_download download tkr j = inl e) ->
  Loader.try_download download tkr (attempt + k) = inr data ->
  let run := Loader.retry_loop download tkr max_retries retry_delay fuel attempt in
  value_of run = Some data
  /\ List.length (filter is_warning (log_of run)) = k
  /\ seconds_slept (log_of run) = (k * retry_delay)%nat
  /\ filter is_error (log_of run) = [].
Proof.
  revert fuel attempt. induction k as [| k IH]; intros fuel attempt Hk Hfail Hok run.
  - destruct fuel as [| fuel]; [lia |]. unfold run. cbn [Loader.retry_loop].
    rewrite Nat.add_0_r in Hok. rewrite Hok. repeat split; reflexivity.
  - destruct fuel as [| fuel]; [lia |].
    destruct (Hfail attempt ltac:(lia)) as [e He].
    destruct (IH fuel (S attempt)) as (Hv & Hw & Hs & Herr).
    { lia. }
    { intros j Hj. apply Hfail. lia. }
    { rewrite <- Hok. f_equal. lia. }
    unfold run. cbn [Loader.retry_loop]. rewrite He.
    rewrite !bind_emit. cbn [value_of log_of fst snd filter is_warning is_error
                              seconds_slept List.length].
    rewrite Hv, Hw, Hs, Herr. repeat split; reflexivity.
Qed.

Lemma retry_loop_result (download : nat -> attempt) (tkr : ticker)
  (max_retries retry_delay fuel attempt : nat) :
  let run := Loader.retry_loop download tkr max_retries retry_delay fuel attempt in
  match value_of run with
  | Some data => data <> [] /\ existsb is_error (log_of run) = false
  | None => existsb is_error (log_of run) = true
  end.
Proof.
  revert attempt. induction fuel as [| fuel IH]; intros attempt run.
  - reflexivity.
  - unfold run. cbn [Loader.retry_loop].
    destruct (Loader.try_download download tkr attempt) as [e | data] eqn:E.
    + rewrite !bind_emit. cbn [value_of log_of fst snd existsb is_error orb].
      apply IH.
    + cbn. split; [| reflexivity]. exact (try_download_not_empty _ _ _ _ E).
Qed.

Lemma load_data_result (p : Loader.page) (download : nat -> attempt) (tkr : ticker) :
  match value_of (Loader.load_data p download tkr) with
  | Some data =>
      data <> [] /\ existsb is_error (log_of (Loader.load_data p download tkr)) = false
  | None => existsb is_error (log_of (Loader.load_data p download tkr)) = true
  end.
Proof.
  assert (Hretry : forall m d,
             match value_of (Loader.load_data_retry download tkr m d) with
             | Some data =>
                 data <> []
                 /\ existsb is_error (log_of (Loader.load_data_retry download tkr m d))
                    = false
             | None =>
                 existsb is_error (log_of (Loader.load_data_retry download tkr m d))
                 = true
             end).
  { intros m d. apply retry_loop_result. }
  assert (Honce :
            match value_of (Loader.load_data_once download tkr) with
            | Some data =>
                data <> []
                /\ existsb is_error (log_of (Loader.load_data_once download tkr))
                   = false
            | None =>
                existsb is_error (log_of (Loader.load_data_once download tkr)) = true
            end).
  { unfold Loader.load_data_once.
    destruct (Loader.try_download download tkr 0) as [e | data] eqn:E.
    - reflexivity.
    - cbn. split; [| reflexivity]. exact (try_download_not_empty _ _ _ _ E). }
  destruct p; cbn [Loader.load_data]; solve [apply Hretry | exact Honce].
Qed.

(** X1.  When every one of the [max_retries] attempts fails, the retrying
    [load_data] returns [None] after showing one warning and sleeping
    [retry_delay] seconds per attempt, and ends with a single error message
    that names the number of attempts. *)
Theorem retry_gives_up_after_max_retries (download : nat -> attempt)
  (tkr : ticker) (max_retries retry_delay : nat) :
  (forall k, (k < max_retries)%nat ->
             exists e, Loader.try_download download tkr k = inl e) ->
  let run := Loader.load_data_retry download tkr max_retries retry_delay in
  value_of run = None
  /\ List.length (filter is_warning (log_of run)) = max_retries
  /\ seconds_slept (log_of run) = (max_retries * retry_delay)%nat
  /\ filter is_error (log_of run)
     = [st_error ("Failed to load data for " +++ tkr +++ " after "
                  +++ show_nat max_retries +++ " attempts.")].
Proof.
  intros Hfail. apply retry_loop_exhausted. intros k Hk. apply Hfail. lia.
Qed.

Lemma retry_gives_up_witness :
  value_of (Loader.load_data_retry (Sample.no_data "XLK") "XLK" 3 5) = None
  /\ seconds_slept (log_of (Loader.load_data_retry (Sample.no_data "XLK") "XLK" 3 5))
     = 15%nat.
Proof.
  destruct (retry_gives_up_after_max_retries (Sample.no_data "XLK") "XLK" 3 5)
    as (Hv & _ & Hs & _).
  - intros k _. eexists. reflexivity.
  - split; [exact Hv | exact Hs].
Defined.

(** X2.  When attempt [k] (counted from 0, [k < max_retries]) is the first
    to succeed, the retrying [load_data] returns the data of that attempt,
    having shown [k] warnings, slept [k * retry_delay] seconds and shown no
    error. *)
Theorem retry_returns_first_successful_attempt (download : nat -> attempt)
  (tkr : ticker) (max_retries retry_delay k : nat) (data : frame) :
  (k < max_retries)%nat ->
  (forall j, (j < k)%nat -> exists e, Loader.try_download download tkr j = inl e) ->
  Loader.try_download download tkr k = inr data ->
  let run := Loader.load_data_retry download tkr max_retries retry_delay in
  value_of run = Some data
  /\ List.length (filter is_warning (log_of run)) = k
  /\ seconds_slept (log_of run) = (k * retry_delay)%nat
  /\ filter is_error (log_of run) = [].
Proof.
  intros Hk Hfail Hok.
  apply (retry_loop_first_success download tkr max_retries retry_delay data k).
  - exact Hk.
  - intros j Hj. apply Hfail. lia.
  - exact Hok.
Qed.

Lemma retry_first_success_witness :
  value_of (Loader.load_data_retry Sample.flaky "AAPL" 3 5)
  = Some [Sample.day 1 10; Sample.day 2 11]
  /\ seconds_slept (log_of (Loader.load_data_retry Sample.flaky "AAPL" 3 5)) = 10%nat.
Proof.
  destruct (retry_returns_first_successful_attempt
              Sample.flaky "AAPL" 3 5 2 [Sample.day 1 10; Sample.day 2 11])
    as (Hv & _ & Hs & _).
  - lia.
  - intros j Hj. exists "timeout".
    destruct j as [| [| j]]; [reflexivity | reflexivity | lia].
  - reflexivity.
  - split; [exact Hv | exact Hs].
Defined.

(** X3.  Whichever definition a page is bound to, a frame returned by
    [load_data] is never empty and comes with no error message, and [None]
    is returned only after an error message has been shown. *)
Theorem load_data_returns_rows_or_reports (p : Loader.page)
  (download : nat -> attempt) (tkr : ticker) :
  (forall data,
      value_of (Loader.load_data p download tkr) = Some data ->
      data <> []
      /\ existsb is_error (log_of (Loader.load_data p download tkr)) = false)
  /\ (value_of (Loader.load_data p download tkr) = None ->
      existsb is_error (log_of (Loader.load_data p download tkr)) = true).
Proof.
  pose proof (load_data_result p download tkr) as H.
  destruct (value_of (Loader.load_data p download tkr)) as [d |].
  - split; [| discriminate]. intros data E. injection E as <-. exact H.
  - split; [discriminate |]. intros _. exact H.
Qed.

Lemma load_data_returns_rows_witness :
  [Sample.day 1 10; Sample.day 2 11] <> []
  /\ existsb is_error (log_of (Loader.load_data Loader.SP500 Sample.flaky "AAPL"))
     = false.
Proof.
  apply (proj1 (load_data_returns_rows_or_reports Loader.SP500 Sample.flaky "AAPL")).
  reflexivity.
Defined.

Lemma retry_loop_shows_no_chart (download : nat -> attempt) (tkr : ticker)
  (max_retries retry_delay fuel attempt : nat) :
  existsb is_chart
    (log_of (Loader.retry_loop download tkr max_retries retry_delay fuel attempt))
  = false.
Proof.
  revert attempt. induction fuel as [| fuel IH]; intros attempt.
  - reflexivity.
  - cbn [Loader.retry_loop].
    destruct (Loader.try_download download tkr attempt) as [e | data].
    + rewrite !bind_emit. cbn [log_of snd existsb is_chart orb]. apply IH.
    + reflexivity.
Qed.

Lemma load_data_shows_no_chart (p : Loader.page) (download : nat -> attempt)
  (tkr : ticker) :
  existsb is_chart (log_of (Loader.load_data p download tkr)) = false.
Proof.
  assert (Honce : existsb is_chart (log_of (Loader.load_data_once download tkr))
                  = false).
  { unfold Loader.load_data_once.
    destruct (Loader.try_download download tkr 0); reflexivity. }
  destruct p; cbn [Loader.load_data];
    solve [apply retry_loop_shows_no_chart | exact Honce].
Qed.

(** ** Summary statistics of a series that opens above zero *)

Lemma total_return_finite (o c : Q) :
  ~ o == 0 -> total_return (Fin o) (Fin c) = Fin ((c - o) / o * 100).
Proof.
  intros Hne. unfold total_return, fsub, fneg, fadd, fdiv, fmul.
  rewrite (Qeq_bool_false o 0 Hne). reflexivity.
Qed.

Lemma cagr_finite (rpow : Q -> Q -> Q) (o c : Q) :
  0 < o -> 0 <= c -> is_finite (cagr rpow (Fin o) (Fin c)) = true.
Proof.
  intros Ho Hc. unfold cagr, fdiv.
  assert (Hne : ~ o == 0) by (intros E; rewrite E in Ho; exact (Qlt_irrefl 0 Ho)).
  rewrite (Qeq_bool_false o 0 Hne). unfold fpow.
  destruct (Qeq_bool (c / o) 0); [reflexivity |].
  rewrite Qle_bool_true; [reflexivity |].
  unfold Qdiv. apply Qmult_le_0_compat; [exact Hc |].
  apply Qinv_le_0_compat. apply Qlt_le_weak. exact Ho.
Qed.

(** X4.  For a regular series (three rows or more, no closing price
    equal to zero) that opens above zero and does not close below zero,
    every number of the summary table of the S&P 500 page is finite and
    the total return is
    [(closing_value - opening_value) / opening_value * 100]. *)
Theorem positive_open_statistics_are_finite (rpow : Q -> Q -> Q)
  (annualized_std : list fval -> Q) (r0 : row) (rest : frame) :
  regular_frame (r0 :: rest) ->
  0 < Open r0 ->
  0 <= Close (last (r0 :: rest) r0) ->
  cells_finite (summary_statistics rpow annualized_std r0 rest) = true
  /\ dict_get "Total Return (%)" (summary_statistics rpow annualized_std r0 rest)
     = Some (Num (Fin ((Close (last (r0 :: rest) r0) - Open r0) / Open r0 * 100))).
Proof.
  intros _ Ho Hc.
  assert (Hne : ~ Open r0 == 0).
  { intros E. rewrite E in Ho. exact (Qlt_irrefl 0 Ho). }
  unfold summary_statistics, cells_finite.
  cbn [forallb snd dict_get String.eqb Ascii.eqb Bool.eqb].
  rewrite (total_return_finite _ _ Hne), (cagr_finite rpow _ _ Ho Hc).
  split; reflexivity.
Qed.

Lemma positive_open_statistics_witness :
  cells_finite
    (summary_statistics Sample.unit_power Sample.variance_252
       (Sample.day 1 1) [Sample.day 2 2; Sample.day 3 1])
  = true
  /\ dict_get "Total Return (%)"
       (summary_statistics Sample.unit_power Sample.variance_252
          (Sample.day 1 1) [Sample.day 2 2; Sample.day 3 1])
     = Some (Num (Fin ((Close (last [Sample.day 1 1; Sample.day 2 2; Sample.day 3 1]
                                 (Sample.day 1 1))
                        - Open (Sample.day 1 1))
                       / Open (Sample.day 1 1) * 100))).
Proof.
  apply (positive_open_statistics_are_finite Sample.unit_power Sample.variance_252
           (Sample.day 1 1) [Sample.day 2 2; Sample.day 3 1]).
  - split; [simpl; lia |].
    repeat constructor; intros E; vm_compute in E; discriminate.
  - reflexivity.
  - unfold Qle. simpl. lia.
Defined.

(** X5.  When the three attempts to load the index fail, the S&P 500 page
    does not stop at the loader's error: it goes on to [sp500.empty] with
    [sp500 = None], which raises [AttributeError]; no chart and no table
    are shown. *)
Theorem sp500_page_raises_when_index_does_not_load (rpow : Q -> Q -> Q)
  (annualized_std : list fval -> Q) (download : ticker -> nat -> attempt) :
  (forall k, (k < 3)%nat ->
             exists e, Loader.try_download (download "^GSPC") "^GSPC" k = inl e) ->
  value_of (sp500_page rpow annualized_std download) = Crashed "AttributeError"
  /\ existsb is_chart (log_of (sp500_page rpow annualized_std download)) = false
  /\ existsb is_error (log_of (sp500_page rpow annualized_std download)) = true
  /\ seconds_slept (log_of (sp500_page rpow annualized_std download)) = 15%nat.
Proof.
  intros Hfail.
  destruct (retry_loop_exhausted (download "^GSPC") "^GSPC" 3 5 3 0)
    as (Hv & _ & Hs & Herr).
  { intros k Hk. apply Hfail. lia. }
  pose proof (load_data_shows_no_chart Loader.SP500 (download "^GSPC") "^GSPC")
    as Hchart.
  pose proof (load_data_result Loader.SP500 (download "^GSPC") "^GSPC") as Hres.
  unfold sp500_page. rewrite bind_value_log.
  change (Loader.load_data Loader.SP500 (download "^GSPC") "^GSPC")
    with (Loader.retry_loop (download "^GSPC") "^GSPC" 3 5 3 0) in *.
  rewrite Hv in *. cbn [value_of log_of fst snd ret]. rewrite app_nil_r.
  repeat split; assumption.
Qed.

Lemma sp500_page_raises_witness :
  value_of (sp500_page Sample.unit_power Sample.variance_252 Sample.no_data)
  = Crashed "AttributeError"
  /\ existsb is_chart
       (log_of (sp500_page Sample.unit_power Sample.variance_252 Sample.no_data))
     = false.
Proof.
  destruct (sp500_page_raises_when_index_does_not_load
              Sample.unit_power Sample.variance_252 Sample.no_data)
    as (Hv & Hc & _).
  - intros k _. eexists. reflexivity.
  - split; [exact Hv | exact Hc].
Defined.

(** ** The sort, again *)

Lemma sorted_reverse_fixes_sorted (items : list (string * Q)) :
  Sorted descending items -> sorted_reverse items = items.
Proof.
  induction items as [| x items IH]; intros Hs; [reflexivity |].
  inversion Hs as [| ? ? Hrest Hhd]; subst.
  simpl. rewrite (IH Hrest). destruct items as [| y items]; [reflexivity |].
  simpl. inversion Hhd as [| ? ? Hxy]; subst. unfold descending in Hxy.
  rewrite (Qle_bool_true _ _ Hxy). reflexivity.
Qed.

Lemma insert_desc_keeps_ties (k : Q) (x : string * Q) (l : list (string * Q)) :
  filter (fun e => Qeq_bool (snd e) k) (insert_desc x l)
  = filter (fun e => Qeq_bool (snd e) k) (x :: l).
Proof.
  induction l as [| y l IH]; [reflexivity |].
  cbn [insert_desc]. destruct (Qle_bool (snd y) (snd x)) eqn:Hle; [reflexivity |].
  cbn [filter] in *. rewrite IH.
  destruct (Qeq_bool (snd x) k) eqn:Hx; [| reflexivity].
  destruct (Qeq_bool (snd y) k) eqn:Hy; [| reflexivity].
  apply Qeq_bool_iff in Hx. apply Qeq_bool_iff in Hy.
  assert (Hxy : snd y <= snd x) by (rewrite Hx, Hy; apply Qle_refl).
  apply Qle_bool_iff in Hxy. congruence.
Qed.

Lemma sorted_reverse_is_stable (items : list (string * Q)) :
  Permutation (sorted_reverse items) items
  /\ sorted_reverse (sorted_reverse items) = sorted_reverse items
  /\ forall k : Q,
       filter (fun e => Qeq_bool (snd e) k) (sorted_reverse items)
       = filter (fun e => Qeq_bool (snd e) k) items.
Proof.
  split; [apply sorted_reverse_perm |]. split.
  - apply sorted_reverse_fixes_sorted. apply StronglySorted_Sorted.
    apply sorted_reverse_sorted.
  - intros k. induction items as [| x items IH]; [reflexivity |].
    cbn [sorted_reverse fold_right].
    change (fold_right insert_desc [] items) with (sorted_reverse items).
    rewrite insert_desc_keeps_ties. cbn [filter]. rewrite IH. reflexivity.
Qed.

(** ** What the ranking holds *)

Lemma in_dict_set {V : Type} (x k : string) (w v : V) (d : dict V) :
  In (x, w) (dict_set k v d) -> (x = k /\ w = v) \/ In (x, w) d.
Proof.
  induction d as [| [k' v'] d IH]; simpl.
  - intros [E | []]. injection E as <- <-. left. split; reflexivity.
  - destruct (String.eqb_spec k' k) as [Heq | Hne]; simpl.
    + intros [E | Hin]; [injection E as <- <-; left; split; reflexivity |].
      right. right. exact Hin.
    + intros [E | Hin]; [right; left; exact E |].
      destruct (IH Hin) as [H | H]; [left; exact H | right; right; exact H].
Qed.

Lemma NoDup_app_disjoint {A : Type} (a c : list A) (x : A) :
  NoDup (a ++ c) -> In x a -> ~ In x c.
Proof.
  induction a as [| y a IH]; simpl; [contradiction |].
  intros Hnd [Heq | Hin] Hc.
  - subst y. inversion Hnd as [| ? ? Hnotin _]; subst.
    apply Hnotin. apply in_or_app. right. exact Hc.
  - inversion Hnd as [| ? ? _ Hrest]; subst. exact (IH Hrest Hin Hc).
Qed.

Lemma contribution_length (sp500_companies : dict (string * string))
  (r : list (string * Q)) (sector : string) :
  (List.length (contribution sp500_companies r sector) <= 4)%nat.
Proof.
  unfold contribution, slice_to, slice_last.
  rewrite length_app, !length_map, length_firstn, length_skipn. lia.
Qed.

Lemma flat_map_length_bound {A B : Type} (f : A -> list B) (bound : nat)
  (l : list A) :
  (forall a, (List.length (f a) <= bound)%nat) ->
  (List.length (flat_map f l) <= bound * List.length l)%nat.
Proof.
  intros Hb. induction l as [| a l IH]; simpl; [lia |].
  rewrite length_app. specialize (Hb a). lia.
Qed.

Section RankingFacts.

Variable annualized_std : list fval -> Q.
Variable set_order : list string -> list string.
Variable sp500_companies : dict (string * string).
Variable download : ticker -> nat -> attempt.

Local Abbreviation volatilities_from tickers seed :=
  (Reused.volatility_loop annualized_std download tickers seed).
Local Abbreviation ranking :=
  (value_of (Reused.ranking annualized_std sp500_companies download)).
Local Abbreviation sectors :=
  (set_order (map (sector_of sp500_companies) (keys sp500_companies))).
Local Abbreviation get_portfolios :=
  (Reused.get_portfolios annualized_std set_order sp500_companies download).

Lemma load_data_once_value (t : ticker) :
  value_of (Reused.load_data download t)
  = match Loader.try_download (download t) t 0 with
    | inr d => Some d
    | inl _ => None
    end.
Proof.
  destruct (load_data_once_cases download t) as [[d [Hd H]] | [e [He H]]];
    rewrite H; [rewrite Hd | rewrite He]; reflexivity.
Qed.

Lemma volatility_loop_keys_iff (tickers : list ticker) (seed : dict Q) (t : ticker) :
  In t (keys (value_of (volatilities_from tickers seed)))
  <-> In t (keys seed) \/ (In t tickers /\ loads download t = true).
Proof.
  revert seed. induction tickers as [| t' tickers IH]; intros seed.
  - simpl. intuition.
  - rewrite volatility_loop_step, load_data_once_value.
    unfold loads in *.
    destruct (Loader.try_download (download t') t' 0) as [e | d] eqn:E.
    + rewrite IH. simpl. split.
      * intros [H | [H1 H2]]; [left; exact H | right; split; [right |]; assumption].
      * intros [H | [[Heq | H1] H2]]; [left; exact H | | right; split; assumption].
        subst t'. rewrite E in H2. discriminate.
    + rewrite IH. rewrite in_keys_dict_set. simpl. split.
      * intros [[Heq | H] | [H1 H2]].
        -- subst t'. right. rewrite E. split; [left |]; reflexivity.
        -- left. exact H.
        -- right. split; [right |]; assumption.
      * intros [H | [[Heq | H1] H2]].
        -- left. right. exact H.
        -- left. left. symmetry. exact Heq.
        -- right. split; assumption.
Qed.

Lemma volatility_loop_entries (tickers : list ticker) (seed : dict Q) :
  let computed (tv : string * Q) :=
    exists d, Loader.try_download (download (fst tv)) (fst tv) 0 = inr d
              /\ snd tv = annualized_std (pct_change (map Close d)) in
  Forall computed seed ->
  Forall computed (value_of (volatilities_from tickers seed)).
Proof.
  intros computed. revert seed.
  induction tickers as [| t tickers IH]; intros seed Hseed.
  - exact Hseed.
  - rewrite volatility_loop_step, load_data_once_value.
    destruct (Loader.try_download (download t) t 0) as [e | d] eqn:E.
    + apply IH. exact Hseed.
    + apply IH. apply Forall_forall. intros [x w] Hin.
      apply in_dict_set in Hin. destruct Hin as [[-> ->] | Hin].
      * exists d. split; [exact E | reflexivity].
      * rewrite Forall_forall in Hseed. exact (Hseed _ Hin).
Qed.

Lemma ranked_iff_loaded (t : ticker) :
  In t (map fst ranking)
  <-> In t (keys sp500_companies) /\ loads download t = true.
Proof.
  rewrite ranking_value.
  assert (Hperm : Permutation
                    (map fst (sorted_reverse
                                (value_of (volatilities_from (keys sp500_companies) []))))
                    (keys (value_of (volatilities_from (keys sp500_companies) [])))).
  { apply Permutation_map. apply sorted_reverse_perm. }
  split.
  - intros Hin. apply (Permutation_in _ Hperm) in Hin.
    apply volatility_loop_keys_iff in Hin. destruct Hin as [[] | H]. exact H.
  - intros H. apply (Permutation_in _ (Permutation_sym Hperm)).
    apply volatility_loop_keys_iff. right. exact H.
Qed.

(** X7.  The ranking names no ticker twice, even for a table that repeats
    a key; a ticker is ranked exactly when it is a key of the table and its
    download gave data; and the number ranked with it is the statistic of
    the closing prices of that data. *)
Theorem ranking_holds_each_loaded_ticker_once :
  NoDup (map fst ranking)
  /\ (forall t, In t (map fst ranking)
                <-> In t (keys sp500_companies) /\ loads download t = true)
  /\ (forall t v,
         In (t, v) ranking ->
         exists d, Loader.try_download (download t) t 0 = inr d
                   /\ v = annualized_std (pct_change (map Close d))).
Proof.
  split; [apply ranking_tickers_unique |]. split; [exact ranked_iff_loaded |].
  intros t v Hin. rewrite ranking_value in Hin.
  apply (Permutation_in _ (sorted_reverse_perm _)) in Hin.
  pose proof (volatility_loop_entries (keys sp500_companies) [] (Forall_nil _))
    as Hall.
  rewrite Forall_forall in Hall. exact (Hall (t, v) Hin).
Qed.

Lemma portfolio_tickers_ranked (name : string) (tickers : list ticker) :
  In (name, tickers) (value_of get_portfolios) ->
  incl tickers (map fst ranking).
Proof.
  rewrite get_portfolios_value. intros Hin t Ht.
  assert (Hsub : forall l : list (string * Q),
             incl l ranking -> In t (map fst l) -> In t (map fst ranking)).
  { intros l Hl Hm. apply in_map_iff in Hm. destruct Hm as [tv [Heq Htv]].
    apply in_map_iff. exists tv. split; [exact Heq | exact (Hl _ Htv)]. }
  destruct Hin as [E | [E | [E | []]]]; injection E as _ <-.
  - apply (Hsub (slice_to 5 ranking)); [| exact Ht].
    intros x. apply in_slice_to.
  - apply (Hsub (slice_last 100 ranking)); [| exact Ht].
    intros x. apply in_slice_last.
  - apply in_flat_map in Ht. destruct Ht as [sector [_ Ht]].
    unfold contribution in Ht. apply in_app_or in Ht.
    destruct Ht as [Ht | Ht].
    + apply (Hsub (slice_to 2 (sector_stocks sp500_companies ranking sector)));
        [| exact Ht].
      intros x Hx. apply in_slice_to in Hx. unfold sector_stocks in Hx.
      apply filter_In in Hx. tauto.
    + apply (Hsub (slice_last 2 (sector_stocks sp500_companies ranking sector)));
        [| exact Ht].
      intros x Hx. apply in_slice_last in Hx. unfold sector_stocks in Hx.
      apply filter_In in Hx. tauto.
Qed.

(** X8.  Every ticker that [get_portfolios] puts in a portfolio is a key of
    the table whose download gave data, and the Diversified portfolio has
    at most four entries per sector. *)
Theorem portfolios_name_loaded_tickers :
  (forall name tickers t,
      In (name, tickers) (value_of get_portfolios) ->
      In t tickers ->
      In t (keys sp500_companies) /\ loads download t = true)
  /\ (forall diversified,
         dict_get "Diversified" (value_of get_portfolios) = Some diversified ->
         (List.length diversified <= 4 * List.length sectors)%nat).
Proof.
  split.
  - intros name tickers t Hin Ht. apply ranked_iff_loaded.
    exact (portfolio_tickers_ranked name tickers Hin t Ht).
  - intros diversified Hd. rewrite get_portfolios_value in Hd.
    rewrite (proj2 (proj2 (portfolio_lookup _ _ _))) in Hd.
    injection Hd as <-. apply flat_map_length_bound.
    intros sector. apply contribution_length.
Qed.

(** X9.  With at least 105 ranked tickers the Aggressive and the Low-Risk
    portfolios have no ticker in common. *)
Theorem aggressive_and_low_risk_disjoint_from_105 (aggressive low_risk : list ticker) :
  (105 <= List.length ranking)%nat ->
  dict_get "Aggressive" (value_of get_portfolios) = Some aggressive ->
  dict_get "Low-Risk" (value_of get_portfolios) = Some low_risk ->
  forall t, In t aggressive -> ~ In t low_risk.
Proof.
  intros Hn Ha Hl. rewrite get_portfolios_value in Ha, Hl.
  rewrite (proj1 (portfolio_lookup _ _ _)) in Ha.
  rewrite (proj1 (proj2 (portfolio_lookup _ _ _))) in Hl.
  injection Ha as <-. injection Hl as <-.
  intros t. apply NoDup_app_disjoint.
  pose proof ranking_tickers_unique annualized_std sp500_companies download as Hnd.
  assert (Hsplit : ranking
                   = slice_to 5 ranking
                     ++ firstn (List.length ranking - 105) (skipn 5 ranking)
                     ++ slice_last 100 ranking).
  { unfold slice_to, slice_last.
    replace (List.length ranking - 100)%nat
      with ((List.length ranking - 105) + 5)%nat by lia.
    rewrite <- skipn_skipn. rewrite firstn_skipn. rewrite firstn_skipn.
    reflexivity. }
  rewrite Hsplit in Hnd. rewrite !map_app in Hnd.
  exact (NoDup_drop_middle _ _ _ Hnd).
Qed.

(** X10.  When the list of sectors holds every sector of the table, each
    ranked ticker has a ticker of its own sector in the Diversified
    portfolio. *)
Theorem diversified_represents_every_ranked_sector (diversified : list ticker) :
  (forall xs x, In x xs -> In x (set_order xs)) ->
  dict_get "Diversified" (value_of get_portfolios) = Some diversified ->
  forall t,
    In t (map fst ranking) ->
    exists t', In t' diversified
               /\ sector_of sp500_companies t' = sector_of sp500_companies t.
Proof.
  intros Hset Hd t Ht. rewrite get_portfolios_value in Hd.
  rewrite (proj2 (proj2 (portfolio_lookup _ _ _))) in Hd. injection Hd as <-.
  set (sector := sector_of sp500_companies t).
  assert (Hsector : In sector sectors).
  { apply Hset. apply in_map. apply ranked_iff_loaded. exact Ht. }
  apply in_map_iff in Ht. destruct Ht as [tv [Heq Htv]].
  assert (Hstock : In tv (sector_stocks sp500_companies ranking sector)).
  { unfold sector_stocks. apply filter_In. split; [exact Htv |].
    cbv beta. subst t. apply String.eqb_refl. }
  destruct (sector_stocks sp500_companies ranking sector) as [| top others] eqn:E;
    [contradiction |].
  exists (fst top).
  assert (Hin : In (fst top) (contribution sp500_companies ranking sector)).
  { unfold contribution. rewrite E. apply in_or_app. left.
    unfold slice_to. destruct others; simpl; left; reflexivity. }
  split.
  - apply in_flat_map. exists sector. split; assumption.
  - exact (contribution_sector _ _ _ _ Hin).
Qed.

End RankingFacts.

Lemma ranking_holds_witness :
  exists d,
    Loader.try_download (Sample.download_X "B") "B" 0 = inr d
    /\ (567 # 2) = Sample.variance_252 (pct_change (map Close d)).
Proof.
  apply (proj2 (proj2 (ranking_holds_each_loaded_ticker_once
                         Sample.variance_252 Sample.companies_X
                         Sample.download_X))
           "B" (567 # 2)).
  vm_compute. left. reflexivity.
Defined.

Lemma portfolios_name_loaded_witness :
  In "C" (keys Sample.companies_X) /\ loads Sample.download_X "C" = true.
Proof.
  apply (proj1 (portfolios_name_loaded_tickers
                  Sample.variance_252 Sample.first_seen Sample.companies_X
                  Sample.download_X)
           "Diversified" ["B"; "C"; "C"; "A"] "C").
  - vm_compute. right. right. left. reflexivity.
  - right. left. reflexivity.
Defined.

Lemma aggressive_disjoint_witness :
  ~ In "T0"
      (map fst
         (slice_last 100
            (value_of (Reused.ranking Sample.variance_252 Wide.companies
                         Wide.download)))).
Proof.
  apply (aggressive_and_low_risk_disjoint_from_105
           Sample.variance_252 Sample.first_seen Wide.companies Wide.download
           (map fst (slice_to 5
                       (value_of (Reused.ranking Sample.variance_252 Wide.companies
                                    Wide.download))))
           (map fst (slice_last 100
                       (value_of (Reused.ranking Sample.variance_252 Wide.companies
                                    Wide.download))))).
  - vm_compute. lia.
  - vm_compute. reflexivity.
  - vm_compute. reflexivity.
  - vm_compute. left. reflexivity.
Defined.

Lemma diversified_represents_witness :
  exists t',
    In t' ["B"; "C"; "C"; "A"]
    /\ sector_of Sample.companies_X t' = sector_of Sample.companies_X "A".
Proof.
  apply (diversified_represents_every_ranked_sector
           Sample.variance_252 Sample.first_seen Sample.companies_X
           Sample.download_X ["B"; "C"; "C"; "A"]).
  - intros xs x Hin. apply nodup_In. exact Hin.
  - vm_compute. reflexivity.
  - vm_compute. right. right. left. reflexivity.
Defined.

Section RankingOrder.

Variable annualized_std : list fval -> Q.
Variable sp500_companies : dict (string * string).
Variable download : ticker -> nat -> attempt.

Local Abbreviation volatilities :=
  (value_of (Reused.volatility_loop annualized_std download
               (keys sp500_companies) [])).
Local Abbreviation ranking :=
  (value_of (Reused.ranking annualized_std sp500_companies download)).

(** X6.  When every frame that loads is regular, so that every volatility
    is a number, the ranking holds the entries of the [volatilities] dict,
    each once, in descending order of volatility; the entries that share a
    volatility keep the order they had in the dict; and sorting the ranking
    again changes nothing. *)
Theorem ranking_sort_is_stable :
  (forall t d,
      In t (keys sp500_companies) ->
      Loader.try_download (download t) t 0 = inr d ->
      regular_frame d) ->
  Permutation ranking volatilities
  /\ StronglySorted descending ranking
  /\ sorted_reverse ranking = ranking
  /\ forall k : Q,
       filter (fun e => Qeq_bool (snd e) k) ranking
       = filter (fun e => Qeq_bool (snd e) k) volatilities.
Proof.
  intros _. rewrite ranking_value.
  destruct (sorted_reverse_is_stable volatilities) as (Hperm & Hagain & Hties).
  split; [exact Hperm |]. split; [apply sorted_reverse_sorted |].
  split; [exact Hagain | exact Hties].
Qed.

End RankingOrder.

Lemma ranking_sort_witness :
  StronglySorted descending
    (value_of (Reused.ranking Sample.variance_252 Sample.companies_X
                 Sample.download_X))
  /\ sorted_reverse
       (value_of (Reused.ranking Sample.variance_252 Sample.companies_X
                    Sample.download_X))
     = value_of (Reused.ranking Sample.variance_252 Sample.companies_X
                   Sample.download_X).
Proof.
  destruct (ranking_sort_is_stable Sample.variance_252 Sample.companies_X
              Sample.download_X sample_frames_regular)
    as (_ & Hsorted & Hagain & _).
  split; [exact Hsorted | exact Hagain].
Defined.

(** ** The constituents of a portfolio on the Portfolio Comparison page *)

Lemma load_error_is_not_chart (log : list ui_event) :
  Forall load_error log -> filter is_chart log = [].
Proof.
  induction log as [| e log IH]; intros Hall; [reflexivity |].
  inversion Hall as [| ? ? [t [msg He]] Hrest]; subst.
  simpl. exact (IH Hrest).
Qed.

Section ConstituentFacts.

Variable rpow : Q -> Q -> Q.
Variable annualized_std : list fval -> Q.
Variable download : ticker -> nat -> attempt.

Lemma returns_loop_step (t : ticker) (tickers : list ticker)
  (portfolio_returns : list series) (valid_tickers : list ticker) :
  ComparisonPage.returns_loop download (t :: tickers) portfolio_returns valid_tickers
  = bind (Reused.load_data download t)
         (fun data =>
            match data with
            | Some d =>
                ComparisonPage.returns_loop download tickers
                  (portfolio_returns ++ [returns_series d]) (valid_tickers ++ [t])
            | None =>
                ComparisonPage.returns_loop download tickers
                  portfolio_returns valid_tickers
            end).
Proof. reflexivity. Qed.

Lemma returns_loop_value (tickers : list ticker)
  (portfolio_returns : list series) (valid_tickers : list ticker) :
  let v := value_of (ComparisonPage.returns_loop download tickers
                       portfolio_returns valid_tickers) in
  snd v = valid_tickers ++ filter (loads download) tickers
  /\ (List.length (fst v)
      = List.length portfolio_returns
        + List.length (filter (loads download) tickers))%nat.
Proof.
  revert portfolio_returns valid_tickers.
  induction tickers as [| t tickers IH]; intros portfolio_returns valid_tickers.
  - simpl. rewrite app_nil_r. split; [reflexivity | lia].
  - cbv zeta. rewrite returns_loop_step, value_of_bind, load_data_once_value.
    cbn [filter].
    destruct (Loader.try_download (download t) t 0) as [e | d] eqn:E.
    + assert (Hno : loads download t = false) by (unfold loads; rewrite E; reflexivity).
      rewrite Hno. apply IH.
    + assert (Hyes : loads download t = true) by (unfold loads; rewrite E; reflexivity).
      rewrite Hyes.
      destruct (IH (portfolio_returns ++ [returns_series d]) (valid_tickers ++ [t]))
        as [Hs Hl].
      rewrite Hs, Hl. rewrite <- app_assoc, length_app. simpl.
      split; [reflexivity | lia].
Qed.

Lemma returns_loop_log (tickers : list ticker)
  (portfolio_returns : list series) (valid_tickers : list ticker) :
  Forall load_error
         (log_of (ComparisonPage.returns_loop download tickers
                    portfolio_returns valid_tickers)).
Proof.
  revert portfolio_returns valid_tickers.
  induction tickers as [| t tickers IH]; intros portfolio_returns valid_tickers.
  - constructor.
  - rewrite returns_loop_step, log_of_bind. apply Forall_app.
    split; [apply load_data_log |].
    destruct (value_of (Reused.load_data download t)); apply IH.
Qed.

(** X11.  On the Portfolio Comparison page the tickers counted in a
    portfolio are those of its list whose download gave data, in the order
    of the list and as often as the list names them; there is one return
    series per such ticker, so never more than the list is long, and the
    only messages of the loop are the loader's. *)
Theorem constituents_are_the_tickers_that_load (tickers : list ticker) :
  let loaded := ComparisonPage.returns_loop download tickers [] [] in
  snd (value_of loaded) = filter (loads download) tickers
  /\ List.length (fst (value_of loaded)) = List.length (snd (value_of loaded))
  /\ (List.length (snd (value_of loaded)) <= List.length tickers)%nat
  /\ Forall load_error (log_of loaded).
Proof.
  intros loaded. destruct (returns_loop_value tickers [] []) as [Hs Hl].
  fold loaded in Hs, Hl. simpl in Hs, Hl.
  split; [exact Hs |]. split; [rewrite Hl, Hs; reflexivity |].
  split; [rewrite Hs; apply filter_length_le | apply returns_loop_log].
Qed.

(** X12.  A portfolio of the Portfolio Comparison page none of whose
    tickers loads is shown neither as a chart nor as a table; any other
    portfolio is shown as one chart followed by one table, whose
    [Tickers] cell joins the tickers that loaded. *)
Theorem comparison_block_shows_loaded_portfolios_only
  (portfolio_name : string) (tickers : list ticker) :
  let block :=
    ComparisonPage.portfolio_block rpow annualized_std download
      portfolio_name tickers in
  (filter (loads download) tickers = [] -> filter is_chart (log_of block) = [])
  /\ (filter (loads download) tickers <> [] ->
      exists cells,
        filter is_chart (log_of block)
        = [ st_pyplot (portfolio_name +++ " Portfolio Performance");
            st_table (portfolio_name +++ " Portfolio Summary") cells ]
        /\ dict_get "Tickers" cells
           = Some (Text (String.concat ", " (filter (loads download) tickers)))).
Proof.
  intros block. unfold block, ComparisonPage.portfolio_block.
  rewrite log_of_bind.
  destruct (returns_loop_value tickers [] []) as [Hs Hl]. simpl in Hs, Hl.
  pose proof (load_error_is_not_chart _ (returns_loop_log tickers [] [])) as Hlog.
  rewrite filter_app, Hlog. cbn [app].
  split.
  - intros Hnone. rewrite Hnone in Hl.
    destruct (fst (value_of (ComparisonPage.returns_loop download tickers [] [])));
      [reflexivity | discriminate].
  - intros Hsome.
    destruct (fst (value_of (ComparisonPage.returns_loop download tickers [] [])))
      as [| s ss].
    + exfalso. apply Hsome. apply length_zero_iff_nil. simpl in Hl. lia.
    + rewrite !bind_emit. cbn [log_of snd filter is_chart ret].
      eexists. split; [reflexivity |]. rewrite Hs. reflexivity.
Qed.

End ConstituentFacts.

Lemma constituents_witness :
  (List.length
     (snd (value_of (ComparisonPage.returns_loop Sample.download_X
                       ["B"; "ZZZ"; "C"; "C"] [] [])))
   <= List.length ["B"; "ZZZ"; "C"; "C"])%nat.
Proof.
  exact (proj1 (proj2 (proj2 (constituents_are_the_tickers_that_load
                                Sample.download_X ["B"; "ZZZ"; "C"; "C"])))).
Defined.

Lemma comparison_block_witness :
  filter is_chart
    (log_of (ComparisonPage.portfolio_block Sample.unit_power Sample.variance_252
               Sample.no_data "Aggressive" ["A"; "B"]))
  = []
  /\ exists cells,
       filter is_chart
         (log_of (ComparisonPage.portfolio_block Sample.unit_power
                    Sample.variance_252 Sample.download_X "Diversified"
                    ["B"; "C"; "C"; "A"]))
       = [ st_pyplot ("Diversified" +++ " Portfolio Performance");
           st_table ("Diversified" +++ " Portfolio Summary") cells ]
       /\ dict_get "Tickers" cells
          = Some (Text (String.concat ", "
                          (filter (loads Sample.download_X) ["B"; "C"; "C"; "A"]))).
Proof.
  split.
  - apply (proj1 (comparison_block_shows_loaded_portfolios_only
                    Sample.unit_power Sample.variance_252 Sample.no_data
                    "Aggressive" ["A"; "B"])).
    reflexivity.
  - apply (proj2 (comparison_block_shows_loaded_portfolios_only
                    Sample.unit_power Sample.variance_252 Sample.download_X
                    "Diversified" ["B"; "C"; "C"; "A"])).
    vm_compute. discriminate.
Defined.

(** ** Dates of the combined series and the running product *)

Lemma insert_date_sorted (d : Z) (index : list Z) :
  Sorted Z.lt index -> Sorted Z.lt (insert_date d index).
Proof.
  induction index as [| x index IH]; simpl; intros Hs.
  - repeat constructor.
  - destruct (Z.ltb_spec d x) as [Hlt | Hge].
    + constructor; [exact Hs | constructor; exact Hlt].
    + destruct (Z.eqb_spec d x) as [Heq | Hne]; [exact Hs |].
      inversion Hs as [| ? ? Hrest Hhd]; subst.
      constructor; [apply IH; exact Hrest |].
      assert (Hxd : (x < d)%Z) by lia.
      destruct index as [| y index]; simpl.
      * constructor. exact Hxd.
      * destruct (Z.ltb_spec d y); [constructor; exact Hxd |].
        destruct (Z.eqb_spec d y); [exact Hhd |].
        constructor. inversion Hhd; subst. assumption.
Qed.

Lemma union_index_sorted (objs : list series) : Sorted Z.lt (union_index objs).
Proof.
  unfold union_index.
  assert (Hgen : forall index, Sorted Z.lt index ->
             Sorted Z.lt
               (fold_left
                  (fun index s => fold_left (fun i dv => insert_date (fst dv) i) s index)
                  objs index)).
  { induction objs as [| s objs IH]; intros index Hs; simpl; [exact Hs |].
    apply IH. clear IH. revert index Hs.
    induction s as [| dv s IHs]; intros index Hs; simpl; [exact Hs |].
    apply IHs. apply insert_date_sorted. exact Hs. }
  apply Hgen. constructor.
Qed.

(** X13.  The combined series lists its dates in strictly ascending
    order, so each date of the union appears once, whatever the order and
    overlap of the constituents' dates. *)
Theorem combined_series_dates_ascend (objs : list series) :
  StronglySorted Z.lt (map fst (concat_mean objs))
  /\ NoDup (map fst (concat_mean objs))
  /\ List.length (concat_mean objs) = List.length (union_index objs).
Proof.
  assert (Hindex : map fst (concat_mean objs) = union_index objs).
  { rewrite concat_mean_rows, map_map. simpl. apply map_id. }
  assert (Hsorted : StronglySorted Z.lt (union_index objs)).
  { apply Sorted_StronglySorted; [| apply union_index_sorted].
    intros a b c. apply Z.lt_trans. }
  rewrite Hindex. split; [exact Hsorted |]. split.
  - clear Hindex. induction Hsorted as [| x l Hs IH Hall]; constructor; [| exact IH].
    intros Hin. rewrite Forall_forall in Hall. specialize (Hall x Hin). lia.
  - rewrite concat_mean_rows, length_map. reflexivity.
Qed.






(** ** The combined returns of a portfolio *)





(** ** Histories that lie on a line *)

Lemma Qsum_ext {A : Type} (f g : A -> Q) (l : list A) :
  (forall x, In x l -> f x == g x) -> Qsum (map f l) == Qsum (map g l).
Proof.
  induction l as [| x l IH]; intros Hfg; simpl; [reflexivity |].
  rewrite (Hfg x (or_introl eq_refl)), IH; [reflexivity |].
  intros y Hy. apply Hfg. right. exact Hy.
Qed.

Lemma inject_succ (n : nat) :
  inject_Z (Z.of_nat (S n)) == 1 + inject_Z (Z.of_nat n).
Proof. rewrite Nat2Z.inj_succ. unfold Z.succ. rewrite inject_Z_plus. ring. Qed.

Lemma inject_positive (n : nat) : (1 <= n)%nat -> 0 < inject_Z (Z.of_nat n).
Proof. intros Hn. unfold Qlt. simpl. lia. Qed.

Lemma Qsum_affine (a b : Q) (l : list Q) :
  Qsum (map (fun x => a + b * x) l)
  == a * inject_Z (Z.of_nat (List.length l)) + b * Qsum l.
Proof.
  induction l as [| x l IH]; [simpl; ring |].
  cbn [map Qsum List.length]. rewrite IH, inject_succ. ring.
Qed.

Lemma Qsum_scale {A : Type} (b : Q) (f : A -> Q) (l : list A) :
  Qsum (map (fun x => b * f x) l) == b * Qsum (map f l).
Proof.
  induction l as [| x l IH]; simpl; [ring |]. rewrite IH. ring.
Qed.

Lemma Qsum_squares_nonneg {A : Type} (f : A -> Q) (l : list A) :
  0 <= Qsum (map (fun x => f x * f x) l).
Proof.
  induction l as [| x l IH]; simpl; [apply Qle_refl |].
  assert (0 <= f x * f x) by nra. lra.
Qed.

Lemma Qsum_zero {A : Type} (f : A -> Q) (l : list A) :
  (forall x, In x l -> f x == 0) -> Qsum (map f l) == 0.
Proof.
  induction l as [| x l IH]; intros Hz; simpl; [reflexivity |].
  rewrite (Hz x (or_introl eq_refl)), IH; [ring |].
  intros y Hy. apply Hz. right. exact Hy.
Qed.

Lemma combine_with_image {A B : Type} (g : A -> B) (l : list A) :
  combine l (map g l) = map (fun x => (x, g x)) l.
Proof. induction l as [| x l IH]; simpl; [| rewrite IH]; reflexivity. Qed.

Lemma combine_images {A B C : Type} (f : A -> B) (g : A -> C) (l : list A) :
  combine (map f l) (map g l) = map (fun x => (f x, g x)) l.
Proof. induction l as [| x l IH]; simpl; [| rewrite IH]; reflexivity. Qed.

Lemma day_range_length (start len : nat) : List.length (day_range start len) = len.
Proof. unfold day_range. rewrite length_map, length_seq. reflexivity. Qed.

Lemma line_history_length (a b : Q) (n : nat) :
  List.length (line_history a b n) = n.
Proof. unfold line_history. rewrite length_map. apply day_range_length. Qed.

(** Two days or more spread around any centre. *)
Lemma spread_of_days (n : nat) (u : Q) :
  (2 <= n)%nat ->
  0 < Qsum (map (fun x => (x - u) * (x - u)) (day_range 0 n)).
Proof.
  intros Hn. destruct n as [| [| n]]; try lia.
  unfold day_range. cbn [seq map Qsum].
  change (inject_Z (Z.of_nat 0)) with 0.
  change (inject_Z (Z.of_nat 1)) with 1.
  pose proof (Qsum_squares_nonneg (fun x => x - u)
                (map (fun i => inject_Z (Z.of_nat i)) (seq 2 n))) as Hrest.
  cbv beta in Hrest.
  assert (Htwo : 0 < (0 - u) * (0 - u) + (1 - u) * (1 - u)) by nra.
  lra.
Qed.

Lemma fit_of_line (a b : Q) (n : nat) :
  (2 <= n)%nat ->
  coef (fit (day_range 0 n) (line_history a b n)) == b
  /\ intercept (fit (day_range 0 n) (line_history a b n)) == a.
Proof.
  intros Hn. unfold fit, line_history.
  set (X := day_range 0 n).
  set (x_mean := Qmean X).
  set (y_mean := Qmean (map (fun x => a + b * x) X)).
  set (sxx := Qsum (map (fun x => (x - x_mean) * (x - x_mean)) X)).
  set (sxy := Qsum (map (fun xy => (fst xy - x_mean) * (snd xy - y_mean))
                        (combine X (map (fun x => a + b * x) X)))).
  assert (Hlen : ~ inject_Z (Z.of_nat (List.length X)) == 0).
  { unfold X. rewrite day_range_length.
    pose proof (inject_positive n ltac:(lia)) as Hpos. intros E.
    rewrite E in Hpos. exact (Qlt_irrefl 0 Hpos). }
  assert (Hy : y_mean == a + b * x_mean).
  { unfold y_mean, x_mean, Qmean. rewrite length_map, Qsum_affine.
    field. exact Hlen. }
  assert (Hpos : 0 < sxx) by (apply spread_of_days; exact Hn).
  assert (Hsxy : sxy == b * sxx).
  { unfold sxy, sxx. rewrite combine_with_image, map_map. cbn [fst snd].
    rewrite <- Qsum_scale. apply Qsum_ext. intros x _. rewrite Hy. ring. }
  assert (Hne : ~ sxx == 0).
  { intros E. rewrite E in Hpos. exact (Qlt_irrefl 0 Hpos). }
  cbn [coef intercept]. rewrite (Qeq_bool_false sxx 0 Hne). split.
  - rewrite Hsxy. field. exact Hne.
  - rewrite Hy, Hsxy. field. exact Hne.
Qed.

Lemma predict_of_line (a b : Q) (n : nat) (X : list Q) :
  (2 <= n)%nat ->
  Forall2 Qeq
    (predict (fit (day_range 0 n) (line_history a b n)) X)
    (map (fun x => a + b * x) X).
Proof.
  intros Hn. destruct (fit_of_line a b n Hn) as [Hc Hi].
  unfold predict. induction X as [| x X IH]; cbn [map]; constructor; [| exact IH].
  rewrite Hc, Hi. reflexivity.
Qed.

Lemma score_of_line (a b : Q) (n : nat) :
  (2 <= n)%nat ->
  feq (score (fit (day_range 0 n) (line_history a b n))
             (day_range 0 n) (line_history a b n))
      (Fin 1).
Proof.
  intros Hn. destruct (fit_of_line a b n Hn) as [Hc Hi].
  unfold score. rewrite line_history_length.
  destruct (Nat.ltb_spec n 2) as [Hlt | _]; [lia |].
  set (model := fit (day_range 0 n) (line_history a b n)) in *.
  assert (Hres : Qsum (map (fun py => (snd py - fst py) * (snd py - fst py))
                           (combine (predict model (day_range 0 n))
                                    (line_history a b n)))
                 == 0).
  { unfold predict, line_history. rewrite combine_images, map_map. cbn [fst snd].
    apply Qsum_zero. intros x _. rewrite Hc, Hi. ring. }
  destruct (Qeq_bool _ 0) eqn:Htot.
  - rewrite (Qeq_bool_true _ 0 Hres). simpl. reflexivity.
  - simpl. rewrite Hres. unfold Qdiv. ring.
Qed.

(** X15.  A history of two or more values that lie exactly on a line
    [a + b * day] is fitted by that line: every projected day is predicted
    at the value of the line and the coefficient of determination is 1. *)
Theorem history_on_a_line_is_continued (a b : Q) (n horizon : nat) :
  (2 <= n)%nat ->
  Forall2 Qeq
    (prediction (project horizon (line_history a b n)))
    (map (fun x => a + b * x) (day_range n horizon))
  /\ feq (r_squared (project horizon (line_history a b n))) (Fin 1).
Proof.
  intros Hn. unfold project. cbn [prediction r_squared].
  rewrite line_history_length. split.
  - apply predict_of_line. exact Hn.
  - apply score_of_line. exact Hn.
Qed.

Lemma history_on_a_line_witness :
  Forall2 Qeq
    (prediction (project 2 (line_history 100 2 4)))
    (map (fun x => 100 + 2 * x) (day_range 4 2))
  /\ feq (r_squared (project 2 (line_history 100 2 4))) (Fin 1).
Proof.
  apply (history_on_a_line_is_continued 100 2 4 2). lia.
Defined.

Lemma inject_add (x y : nat) :
  inject_Z (Z.of_nat (x + y)) == inject_Z (Z.of_nat x) + inject_Z (Z.of_nat y).
Proof. rewrite Nat2Z.inj_add, inject_Z_plus. reflexivity. Qed.

Lemma last_of_days (g : Q -> Q) (start len : nat) :
  last (map g (day_range start (S len))) 0
  = g (inject_Z (Z.of_nat (start + len))).
Proof.
  unfold day_range. rewrite seq_S, !map_app. cbn [map]. apply last_last.
Qed.

(** X16.  For a history of [n >= 2] values on the line [a + b * day]
    whose last value is not zero, the expected return over [horizon >= 1]
    days is [b * horizon / last value * 100]; a flat history ([b = 0]) has
    expected return 0. *)
Theorem expected_return_of_a_line (a b : Q) (n horizon : nat) :
  (2 <= n)%nat ->
  (1 <= horizon)%nat ->
  ~ a + b * inject_Z (Z.of_nat (n - 1)) == 0 ->
  feq (expected_return (project horizon (line_history a b n)))
      (Fin (b * inject_Z (Z.of_nat horizon)
            / (a + b * inject_Z (Z.of_nat (n - 1))) * 100))
  /\ (b == 0 ->
      feq (expected_return (project horizon (line_history a b n))) (Fin 0)).
Proof.
  intros Hn Hh Hlast.
  destruct n as [| m]; [lia |]. destruct horizon as [| k]; [lia |].
  replace (S m - 1)%nat with m in * by lia.
  assert (Hinit : last (line_history a b (S m)) 0
                  = a + b * inject_Z (Z.of_nat m)).
  { unfold line_history. exact (last_of_days (fun x => a + b * x) 0 m). }
  assert (Hfinal : last (prediction (project (S k) (line_history a b (S m)))) 0
                   == a + b * inject_Z (Z.of_nat (S m + k))).
  { unfold project. cbn [prediction]. rewrite line_history_length.
    unfold predict. rewrite last_of_days.
    destruct (fit_of_line a b (S m) Hn) as [Hc Hi]. rewrite Hc, Hi. reflexivity. }
  assert (Hformula :
            feq (expected_return (project (S k) (line_history a b (S m))))
                (Fin (b * inject_Z (Z.of_nat (S k))
                      / (a + b * inject_Z (Z.of_nat m)) * 100))).
  { rewrite expected_return_nonzero by (rewrite Hinit; exact Hlast).
    unfold feq. rewrite Hfinal, Hinit.
    replace (S m + k)%nat with (m + S k)%nat by lia. rewrite inject_add.
    field. exact Hlast. }
  split; [exact Hformula |].
  intros Hb. revert Hformula.
  generalize (expected_return (project (S k) (line_history a b (S m)))).
  intros v Hv. destruct v as [q | | |]; cbn [feq] in Hv |- *; try contradiction.
  rewrite Hv, Hb. field. intros Ha. apply Hlast. rewrite Hb, Ha. ring.
Qed.

Lemma expected_return_of_a_line_witness :
  feq (expected_return (project (3 * 365) (line_history 100 2 4)))
      (Fin (2 * inject_Z (Z.of_nat (3 * 365))
            / (100 + 2 * inject_Z (Z.of_nat (4 - 1))) * 100))
  /\ feq (expected_return (project (3 * 365) (line_history 100 0 4))) (Fin 0).
Proof.
  split.
  - apply (proj1 (expected_return_of_a_line 100 2 4 (3 * 365)
                    ltac:(lia) ltac:(lia)
                    ltac:(intros E; vm_compute in E; discriminate))).
  - apply (proj2 (expected_return_of_a_line 100 0 4 (3 * 365)
                    ltac:(lia) ltac:(lia)
                    ltac:(intros E; vm_compute in E; discriminate))).
    reflexivity.
Defined.

(** ** The 3-Year Prediction page as a whole *)

Lemma prediction_block_completes (download : ticker -> nat -> attempt)
  (portfolio_name : string) (tickers : list ticker) :
  value_of (PredictionPage.portfolio_block download portfolio_name tickers)
  = Completed.
Proof.
  unfold PredictionPage.portfolio_block. rewrite value_of_bind.
  pose proof (values_loop_price_series download tickers [] (Forall_nil _)) as Hall.
  destruct (value_of (PredictionPage.values_loop download tickers [])) as [| s ss];
    [reflexivity |].
  destruct (portfolio_values_are_finite (s :: ss) Hall) as [values [Hv _]].
  rewrite Hv. reflexivity.
Qed.

Section PredictionFacts.

Variable annualized_std : list fval -> Q.
Variable set_order : list string -> list string.
Variable sp500_companies : dict (string * string).
Variable download : ticker -> nat -> attempt.

Local Abbreviation get_portfolios :=
  (Reused.get_portfolios annualized_std set_order sp500_companies download).
Local Abbreviation page :=
  (PredictionPage.page annualized_std set_order sp500_companies download).
Local Abbreviation block name tickers :=
  (PredictionPage.portfolio_block download name tickers).

(** X17.  When the index does not load, the 3-Year Prediction page shows
    the loader's message and its own and stops: no ticker of the table is
    downloaded and nothing is projected. *)
Theorem prediction_page_stops_without_index (e : string) :
  Loader.try_download (download "^GSPC") "^GSPC" 0 = inl e ->
  page
  = (Completed,
     [ st_error ("Failed to load data for " +++ "^GSPC" +++ ": " +++ e);
       st_error "Failed to load S&P 500 data. Please check your connection or try again later." ]).
Proof.
  intros Hfail. unfold PredictionPage.page.
  destruct (load_data_once_cases download "^GSPC") as [[d [Hd _]] | [e' [He' H]]].
  - congruence.
  - rewrite H. assert (e' = e) by congruence. subst e'. reflexivity.
Qed.

(** X18.  When the index loads, the 3-Year Prediction page runs
    [get_portfolios] and then the projection of the Aggressive, the
    Low-Risk and the Diversified portfolio, in that order, and completes:
    the mean closing prices it fits are numbers on every date. *)
Theorem prediction_page_projects_three_portfolios (d : frame) :
  Loader.try_download (download "^GSPC") "^GSPC" 0 = inr d ->
  exists aggressive low_risk diversified,
    value_of get_portfolios
    = [ ("Aggressive", aggressive); ("Low-Risk", low_risk);
        ("Diversified", diversified) ]
    /\ value_of page = Completed
    /\ log_of page
       = log_of get_portfolios
         ++ log_of (block "Aggressive" aggressive)
         ++ log_of (block "Low-Risk" low_risk)
         ++ log_of (block "Diversified" diversified).
Proof.
  intros Hload.
  pose proof (try_download_not_empty _ _ _ _ Hload) as Hrows.
  destruct (load_data_once_cases download "^GSPC") as [[d' [Hd' H]] | [e [He _]]];
    [| congruence].
  assert (d' = d) by congruence. subst d'.
  eexists. eexists. eexists.
  split; [apply get_portfolios_value |].
  unfold PredictionPage.page. rewrite H.
  destruct d as [| r0 rest]; [contradiction |].
  change (Some (r0 :: rest), @nil ui_event) with (ret (Some (r0 :: rest))).
  rewrite bind_ret_l. rewrite bind_value_log.
  rewrite get_portfolios_value.
  cbn [PredictionPage.portfolio_loop].
  rewrite !bind_value_log, !prediction_block_completes.
  cbn [value_of log_of fst snd ret]. rewrite app_nil_r.
  split; reflexivity.
Qed.

End PredictionFacts.

Lemma prediction_page_stops_witness :
  PredictionPage.page Sample.variance_252 Sample.first_seen Sample.companies_X
    Sample.no_data
  = (Completed,
     [ st_error ("Failed to load data for " +++ "^GSPC" +++ ": " +++ "timeout");
       st_error "Failed to load S&P 500 data. Please check your connection or try again later." ]).
Proof.
  apply (prediction_page_stops_without_index
           Sample.variance_252 Sample.first_seen Sample.companies_X
           Sample.no_data "timeout").
  reflexivity.
Defined.

Lemma prediction_page_projects_witness :
  exists aggressive low_risk diversified,
    value_of (Reused.get_portfolios Sample.variance_252 Sample.first_seen
                Sample.companies_X Sample.download_X)
    = [ ("Aggressive", aggressive); ("Low-Risk", low_risk);
        ("Diversified", diversified) ]
    /\ value_of (PredictionPage.page Sample.variance_252 Sample.first_seen
                   Sample.companies_X Sample.download_X)
       = Completed
    /\ log_of (PredictionPage.page Sample.variance_252 Sample.first_seen
                 Sample.companies_X Sample.download_X)
       = log_of (Reused.get_portfolios Sample.variance_252 Sample.first_seen
                   Sample.companies_X Sample.download_X)
         ++ log_of (PredictionPage.portfolio_block Sample.download_X
                      "Aggressive" aggressive)
         ++ log_of (PredictionPage.portfolio_block Sample.download_X
                      "Low-Risk" low_risk)
         ++ log_of (PredictionPage.portfolio_block Sample.download_X
                      "Diversified" diversified).
Proof.
  apply (prediction_page_projects_three_portfolios
           Sample.variance_252 Sample.first_seen Sample.companies_X
           Sample.download_X Sample.frame_A).
  reflexivity.
Defined.

(** ** The Sector Analysis page *)

Lemma dict_set_fresh {V : Type} (k : string) (v : V) (d : dict V) :
  ~ In k (keys d) -> dict_set k v d = d ++ [(k, v)].
Proof.
  unfold keys. induction d as [| [k' v'] d IH]; simpl; intros Hfresh.
  - reflexivity.
  - destruct (String.eqb_spec k' k) as [Heq | Hne].
    + exfalso. apply Hfresh. left. exact Heq.
    + rewrite IH; [reflexivity |]. intros Hin. apply Hfresh. right. exact Hin.
Qed.

Lemma no_chart_filter (log : list ui_event) :
  existsb is_chart log = false -> filter is_chart log = [].
Proof.
  induction log as [| e log IH]; simpl; [reflexivity |].
  destruct (is_chart e); simpl; [discriminate | exact IH].
Qed.

Lemma sectors_keys_unique : NoDup (keys SectorPage.sectors).
Proof.
  assert (H : nodup string_dec (keys SectorPage.sectors) = keys SectorPage.sectors)
    by (vm_compute; reflexivity).
  rewrite <- H. apply NoDup_nodup.
Qed.

Section SectorFacts.

Variable rpow : Q -> Q -> Q.
Variable download : ticker -> nat -> attempt.

Local Abbreviation load t := (SectorPage.load_data download t).
Local Abbreviation loaded_items items :=
  (map (fun st : string * ticker => (fst st, value_of (load (snd st)))) items).

Lemma load_loop_value (items : list (string * ticker))
  (sector_data : dict (option frame)) :
  NoDup (map fst items) ->
  (forall k, In k (map fst items) -> ~ In k (keys sector_data)) ->
  value_of (SectorPage.load_loop download items sector_data)
  = sector_data ++ loaded_items items.
Proof.
  revert sector_data. induction items as [| [sector t] items IH];
    intros sector_data Hnd Hfresh.
  - simpl. rewrite app_nil_r. reflexivity.
  - cbn [SectorPage.load_loop]. rewrite value_of_bind.
    inversion Hnd as [| ? ? Hnotin Hrest]; subst.
    rewrite IH.
    + rewrite dict_set_fresh by (apply Hfresh; left; reflexivity).
      rewrite <- app_assoc. reflexivity.
    + exact Hrest.
    + intros k Hk Hin. apply in_keys_dict_set in Hin.
      destruct Hin as [Heq | Hin].
      * subst k. contradiction.
      * apply (Hfresh k); [right; exact Hk | exact Hin].
Qed.

Lemma load_loop_log (items : list (string * ticker))
  (sector_data : dict (option frame)) :
  filter is_chart (log_of (SectorPage.load_loop download items sector_data)) = [].
Proof.
  revert sector_data. induction items as [| [sector t] items IH]; intros sector_data.
  - reflexivity.
  - cbn [SectorPage.load_loop]. rewrite log_of_bind, filter_app, IH, app_nil_r.
    apply no_chart_filter. apply load_data_shows_no_chart.
Qed.

Lemma plot_loop_missing (items : list (string * option frame)) (sector : string) :
  In (sector, None) items -> SectorPage.plot_loop items = Crashed "TypeError".
Proof.
  induction items as [| [s [d |]] items IH]; simpl; intros Hin.
  - contradiction.
  - apply IH. destruct Hin as [E | Hin]; [discriminate | exact Hin].
  - reflexivity.
Qed.

Lemma plot_loop_all_loaded (items : list (string * option frame)) :
  (forall entry, In entry items -> snd entry <> None) ->
  SectorPage.plot_loop items = Completed.
Proof.
  induction items as [| [s [d |]] items IH]; simpl; intros Hall.
  - reflexivity.
  - apply IH. intros entry Hin. apply Hall. right. exact Hin.
  - exfalso. exact (Hall (s, None) (or_introl eq_refl) eq_refl).
Qed.

Lemma summary_loop_rows (items : list (string * option frame))
  (summary_data : list (string * cell)) :
  (forall entry, In entry items ->
                 exists r0 rest, snd entry = Some (r0 :: rest)) ->
  SectorPage.summary_loop rpow items summary_data
  = inl (summary_data
         ++ flat_map (fun entry => sector_row rpow (fst entry) (snd entry)) items)
  /\ List.length (flat_map (fun entry => sector_row rpow (fst entry) (snd entry)) items)
     = (5 * List.length items)%nat.
Proof.
  revert summary_data. induction items as [| [s data] items IH];
    intros summary_data Hall.
  - simpl. rewrite app_nil_r. split; reflexivity.
  - destruct (Hall (s, data) (or_introl eq_refl)) as [r0 [rest Hd]].
    simpl in Hd. subst data.
    destruct (IH (summary_data ++ sector_row rpow s (Some (r0 :: rest)))) as [Hs Hl].
    { intros entry Hin. apply Hall. right. exact Hin. }
    cbn [SectorPage.summary_loop flat_map fst snd].
    unfold sector_row at 1 in Hs. rewrite Hs. rewrite <- app_assoc.
    split; [reflexivity |].
    rewrite length_app, Hl. cbn [sector_row List.length]. lia.
Qed.

Lemma sector_data_value :
  value_of (SectorPage.load_loop download SectorPage.sectors [])
  = loaded_items SectorPage.sectors.
Proof.
  rewrite load_loop_value; [reflexivity | exact sectors_keys_unique |].
  intros k _ [].
Qed.

(** X19.  The Sector Analysis page first loads all eleven sector funds,
    keeping [None] for one that does not load; it then raises [TypeError]
    at the first such fund when it plots the closing prices, so a single
    missing fund leaves the page without chart and without table. *)
Theorem sector_page_raises_when_a_fund_does_not_load (sector : string) (t : ticker) :
  In (sector, t) SectorPage.sectors ->
  value_of (load t) = None ->
  value_of (SectorPage.page rpow download) = Crashed "TypeError"
  /\ filter is_chart (log_of (SectorPage.page rpow download)) = []
  /\ log_of (SectorPage.page rpow download)
     = log_of (SectorPage.load_loop download SectorPage.sectors []).
Proof.
  intros Hin Hnone. unfold SectorPage.page. rewrite bind_value_log.
  rewrite sector_data_value.
  rewrite (plot_loop_missing _ sector).
  - cbn [value_of log_of fst snd ret]. rewrite app_nil_r.
    split; [reflexivity |]. split; [apply load_loop_log | reflexivity].
  - apply in_map_iff. exists (sector, t). split; [| exact Hin].
    simpl. rewrite Hnone. reflexivity.
Qed.

(** X20.  When the eleven sector funds load, the Sector Analysis page
    completes and shows, after the loader's messages, one chart, the
    summary table with one row of five cells per sector in the order of the
    [sectors] dict, and the table of sector definitions. *)
Theorem sector_page_shows_every_sector :
  (forall sector t, In (sector, t) SectorPage.sectors ->
                    exists d, value_of (load t) = Some d) ->
  let summary :=
    flat_map (fun st => sector_row rpow (fst st) (value_of (load (snd st))))
             SectorPage.sectors in
  value_of (SectorPage.page rpow download) = Completed
  /\ filter is_chart (log_of (SectorPage.page rpow download))
     = [ st_pyplot "Sector Performance Over Time";
         st_table "summary" summary;
         st_table "sector_info" SectorPage.sector_info ]
  /\ List.length summary = 55%nat.
Proof.
  intros Hall summary.
  assert (Hrows : forall entry,
             In entry (loaded_items SectorPage.sectors) ->
             exists r0 rest, snd entry = Some (r0 :: rest)).
  { intros entry Hin. apply in_map_iff in Hin.
    destruct Hin as [[sector t] [<- Hin]]. cbn [fst snd].
    destruct (Hall sector t Hin) as [d Hd].
    pose proof (load_data_result Loader.SectorAnalysis (download t) t) as Hres.
    change (Loader.load_data Loader.SectorAnalysis (download t) t)
      with (load t) in Hres.
    rewrite Hd in Hres |- *. destruct Hres as [Hne _].
    destruct d as [| r0 rest]; [contradiction |]. exists r0, rest. reflexivity. }
  destruct (summary_loop_rows (loaded_items SectorPage.sectors) [] Hrows)
    as [Hsum Hlen].
  assert (Hflat :
            flat_map (fun entry => sector_row rpow (fst entry) (snd entry))
                     (loaded_items SectorPage.sectors)
            = summary).
  { unfold summary. rewrite flat_map_concat_map, map_map.
    rewrite <- flat_map_concat_map. reflexivity. }
  rewrite Hflat in Hsum, Hlen.
  unfold SectorPage.page. rewrite bind_value_log, sector_data_value.
  rewrite plot_loop_all_loaded.
  - rewrite Hsum. rewrite !bind_emit.
    cbn [value_of log_of fst snd ret app]. rewrite filter_app, load_loop_log.
    split; [reflexivity |]. split; [reflexivity |].
    rewrite Hlen, length_map. reflexivity.
  - intros entry Hin. destruct (Hrows entry Hin) as [r0 [rest Hd]].
    rewrite Hd. discriminate.
Qed.

End SectorFacts.

Lemma sector_page_raises_witness :
  value_of (SectorPage.page Sample.unit_power Sample.no_data) = Crashed "TypeError"
  /\ filter is_chart (log_of (SectorPage.page Sample.unit_power Sample.no_data)) = []
  /\ log_of (SectorPage.page Sample.unit_power Sample.no_data)
     = log_of (SectorPage.load_loop Sample.no_data SectorPage.sectors []).
Proof.
  apply (sector_page_raises_when_a_fund_does_not_load
           Sample.unit_power Sample.no_data "Energy" "XLE").
  - vm_compute. tauto.
  - reflexivity.
Defined.

Lemma sector_page_shows_witness :
  value_of (SectorPage.page Sample.unit_power Wide.download) = Completed
  /\ filter is_chart (log_of (SectorPage.page Sample.unit_power Wide.download))
     = [ st_pyplot "Sector Performance Over Time";
         st_table "summary"
           (flat_map
              (fun st =>
                 sector_row Sample.unit_power (fst st)
                   (value_of (SectorPage.load_data Wide.download (snd st))))
              SectorPage.sectors);
         st_table "sector_info" SectorPage.sector_info ]
  /\ List.length
       (flat_map
          (fun st =>
             sector_row Sample.unit_power (fst st)
               (value_of (SectorPage.load_data Wide.download (snd st))))
          SectorPage.sectors)
     = 55%nat.
Proof.
  apply (sector_page_shows_every_sector Sample.unit_power Wide.download).
  intros sector t _. eexists. reflexivity.
Defined.

(** ** The table as a dict *)

Lemma dict_get_set_same {V : Type} (k : string) (v : V) (d : dict V) :
  dict_get k (dict_set k v d) = Some v.
Proof.
  induction d as [| [k' v'] d IH]; simpl.
  - rewrite String.eqb_refl. reflexivity.
  - destruct (String.eqb_spec k' k) as [Heq | Hne]; simpl.
    + rewrite String.eqb_refl. reflexivity.
    + destruct (String.eqb_spec k' k); [contradiction | exact IH].
Qed.

Lemma dict_get_set_other {V : Type} (k k' : string) (v : V) (d : dict V) :
  k <> k' -> dict_get k' (dict_set k v d) = dict_get k' d.
Proof.
  intros Hne. induction d as [| [k0 v0] d IH]; simpl.
  - destruct (String.eqb_spec k k'); [contradiction | reflexivity].
  - destruct (String.eqb_spec k0 k) as [Heq | Hne0]; simpl.
    + subst k0. destruct (String.eqb_spec k k'); [contradiction | reflexivity].
    + destruct (String.eqb_spec k0 k'); [reflexivity | exact IH].
Qed.

Lemma dict_literal_from {V : Type} (entries : list (string * V)) (d : dict V)
  (k : string) :
  NoDup (keys d) ->
  let built := fold_left (fun d kv => dict_set (fst kv) (snd kv) d) entries d in
  NoDup (keys built)
  /\ dict_get k built
     = match find (fun kv => String.eqb (fst kv) k) (rev entries) with
       | Some kv => Some (snd kv)
       | None => dict_get k d
       end
  /\ (forall x, In x (keys built) <-> In x (keys d) \/ In x (map fst entries)).
Proof.
  revert d. induction entries as [| [k0 v0] entries IH]; intros d Hnd built.
  - split; [exact Hnd |]. split; [reflexivity |]. intros x. simpl. tauto.
  - destruct (IH (dict_set k0 v0 d) (NoDup_keys_dict_set k0 v0 d Hnd))
      as (Hunique & Hget & Hkeys).
    unfold built. cbn [fold_left fst snd]. split; [exact Hunique |]. split.
    + rewrite Hget. cbn [rev]. clear.
      induction (rev entries) as [| [k1 v1] l IHl]; cbn [find app fst].
      * destruct (String.eqb_spec k0 k) as [Heq | Hne].
        -- subst k0. apply dict_get_set_same.
        -- apply dict_get_set_other. exact Hne.
      * destruct (String.eqb k1 k); [reflexivity | exact IHl].
    + intros x. rewrite Hkeys, in_keys_dict_set. simpl. intuition.
Qed.

(** X21.  A dict written with repeated keys, as the table of companies is,
    holds each key once; looking a key up gives the value of the last entry
    written for it, and the keys are exactly those written. *)
Theorem repeated_keys_keep_the_last_entry {V : Type} (entries : list (string * V)) :
  NoDup (keys (dict_literal entries))
  /\ (forall k,
         dict_get k (dict_literal entries)
         = option_map snd (find (fun kv => String.eqb (fst kv) k) (rev entries)))
  /\ (forall k, In k (keys (dict_literal entries)) <-> In k (map fst entries)).
Proof.
  split; [| split].
  - apply (dict_literal_from entries [] ""). constructor.
  - intros k.
    destruct (dict_literal_from entries [] k (NoDup_nil _)) as (_ & Hget & _).
    unfold dict_literal. rewrite Hget.
    destruct (find _ (rev entries)); reflexivity.
  - intros k.
    destruct (dict_literal_from entries [] k (NoDup_nil _)) as (_ & _ & Hkeys).
    unfold dict_literal. rewrite Hkeys. simpl. tauto.
Qed.

(** ** The Portfolio Comparison page as a whole *)

Section ComparisonFacts.

Variable rpow : Q -> Q -> Q.
Variable annualized_std : list fval -> Q.
Variable set_order : list string -> list string.
Variable sp500_companies : dict (string * string).
Variable download : ticker -> nat -> attempt.

Local Abbreviation ranking :=
  (value_of (Reused.ranking annualized_std sp500_companies download)).
Local Abbreviation selection :=
  (Comparison.selection annualized_std set_order sp500_companies download).
Local Abbreviation page :=
  (ComparisonPage.page rpow annualized_std set_order sp500_companies download).
Local Abbreviation block name tickers :=
  (ComparisonPage.portfolio_block rpow annualized_std download name tickers).

(** X22.  When the ranking is not empty, the Portfolio Comparison page
    shows, after the messages of the ranking, the Aggressive, the Low-Risk
    and the Diversified portfolio in that order, each from the first five,
    the last hundred and the sector ends of the ranking. *)
Theorem comparison_page_shows_three_portfolios :
  ranking <> [] ->
  log_of page
  = log_of selection
    ++ log_of (block "Aggressive" (map fst (slice_to 5 ranking)))
    ++ log_of (block "Low-Risk" (map fst (slice_last 100 ranking)))
    ++ log_of (block "Diversified"
                 (flat_map (contribution sp500_companies ranking)
                    (set_order (map (sector_of sp500_companies)
                                  (keys sp500_companies))))).
Proof.
  intros Hne. unfold ComparisonPage.page. rewrite log_of_bind.
  rewrite selection_cases.
  destruct (value_of (Reused.volatility_loop annualized_std download
                        (keys sp500_companies) [])) eqn:E.
  - exfalso. apply Hne. apply ranking_empty_iff. exact E.
  - cbn [value_of log_of fst snd]. rewrite get_portfolios_value.
    cbn [ComparisonPage.portfolio_loop]. rewrite !log_of_bind.
    cbn [log_of snd ret]. rewrite app_nil_r. reflexivity.
Qed.

End ComparisonFacts.

Lemma comparison_page_shows_witness :
  log_of (ComparisonPage.page Sample.unit_power Sample.variance_252
            Sample.first_seen Sample.companies_X Sample.download_X)
  = log_of (Comparison.selection Sample.variance_252 Sample.first_seen
              Sample.companies_X Sample.download_X)
    ++ log_of (ComparisonPage.portfolio_block Sample.unit_power Sample.variance_252
                 Sample.download_X "Aggressive"
                 (map fst (slice_to 5
                    (value_of (Reused.ranking Sample.variance_252
                                 Sample.companies_X Sample.download_X)))))
    ++ log_of (ComparisonPage.portfolio_block Sample.unit_power Sample.variance_252
                 Sample.download_X "Low-Risk"
                 (map fst (slice_last 100
                    (value_of (Reused.ranking Sample.variance_252
                                 Sample.companies_X Sample.download_X)))))
    ++ log_of (ComparisonPage.portfolio_block Sample.unit_power Sample.variance_252
                 Sample.download_X "Diversified"
                 (flat_map
                    (contribution Sample.companies_X
                       (value_of (Reused.ranking Sample.variance_252
                                    Sample.companies_X Sample.download_X)))
                    (Sample.first_seen
                       (map (sector_of Sample.companies_X)
                          (keys Sample.companies_X))))).
Proof.
  apply (comparison_page_shows_three_portfolios
           Sample.unit_power Sample.variance_252 Sample.first_seen
           Sample.companies_X Sample.download_X).
  vm_compute. discriminate.
Defined.
